(** * Radius: navigation containment for the proxied frame

    A shallow embedding of the iframe interceptor
    ([src/utils/iframe-interceptor.ts], reproduced in IFRAME_INTERCEPTION.md),
    of the CAPTCHA handler's request gate and message patch
    ([src/utils/captcha-handler.ts]) and of the service worker's fetch
    listener, followed by the properties checked against them.

    JavaScript strings are modelled as [string] (byte strings); the case
    conversions are the ASCII ones, which is what [toLowerCase] does on the
    ASCII serialisation of a URL. Objects carry the realm whose constructors
    made them, since [instanceof] compares against the constructors of the
    realm the testing code runs in. *)

From Stdlib Require Import String Ascii List Bool Arith Lia.
Import ListNotations.
Open Scope string_scope.
Open Scope list_scope.
Open Scope bool_scope.
Set Warnings "-register-all".

(** ** JavaScript string primitives *)

Module Str.

Definition is_upper (c : ascii) : bool :=
  let n := nat_of_ascii c in Nat.leb 65 n && Nat.leb n 90.

Definition is_lower (c : ascii) : bool :=
  let n := nat_of_ascii c in Nat.leb 97 n && Nat.leb n 122.

Definition lower_char (c : ascii) : ascii :=
  if is_upper c then ascii_of_nat (nat_of_ascii c + 32) else c.

Definition upper_char (c : ascii) : ascii :=
  if is_lower c then ascii_of_nat (nat_of_ascii c - 32) else c.

(** [s.toLowerCase()] *)
Fixpoint toLowerCase (s : string) : string :=
  match s with
  | EmptyString => EmptyString
  | String c s' => String (lower_char c) (toLowerCase s')
  end.

(** [s.toUpperCase()] *)
Fixpoint toUpperCase (s : string) : string :=
  match s with
  | EmptyString => EmptyString
  | String c s' => String (upper_char c) (toUpperCase s')
  end.

(** [s.startsWith(p)] *)
Fixpoint startsWith (s p : string) {struct p} : bool :=
  match p, s with
  | EmptyString, _ => true
  | String _ _, EmptyString => false
  | String a p', String b s' => Ascii.eqb a b && startsWith s' p'
  end.

(** [s.includes(p)]: [p] occurs in [s] at some offset. *)
Fixpoint includes (s p : string) : bool :=
  startsWith s p ||
  match s with
  | EmptyString => false
  | String _ s' => includes s' p
  end.

(** [xs.some(f)] *)
Definition some {A : Type} (f : A -> bool) (xs : list A) : bool := existsb f xs.

(** Two strings that differ at most in the case of their ASCII letters. *)
Definition eq_ignore_case (a b : string) : Prop := toLowerCase a = toLowerCase b.

(** [p] occurs in [s] as a substring. *)
Definition Substring (p s : string) : Prop :=
  exists pre post, s = (pre ++ p ++ post)%string.

(** [p] occurs in [s] as a substring up to the case of letters. *)
Definition SubstringCI (p s : string) : Prop :=
  exists pre mid post, s = (pre ++ mid ++ post)%string /\ eq_ignore_case mid p.

End Str.

(** ** Trusted-domain classifier of the interceptor *)

Module Interceptor_Domains.

(** [CAPTCHA_DOMAINS] of iframe-interceptor.ts *)
Definition CAPTCHA_DOMAINS : list string :=
  [ "recaptcha"; "hcaptcha"; "turnstile";
    "challenges.cloudflare.com"; "gstatic.com/recaptcha" ].

(** [isCaptchaUrl(url)] *)
Definition isCaptchaUrl (url : string) : bool :=
  let urlLower := Str.toLowerCase url in
  Str.some (fun domain => Str.includes urlLower domain) CAPTCHA_DOMAINS.

End Interceptor_Domains.

(** ** Realms

    Every window has its own set of constructors ([ArrayBuffer],
    [HTMLAnchorElement], [DOMException], ...), and [x instanceof C] asks
    whether the prototype of that very [C] is on the prototype chain of [x].
    iframe-interceptor.ts is a module of the embedding page, so the
    constructors it names are the embedding page's; the nodes the framed
    document creates, the objects the framed page creates and the errors the
    framed window's primitives raise belong to the realm of the frame. *)

Module Realm.

Inductive t :=
| Embedder
| Framed.

Definition eqb (a b : t) : bool :=
  match a, b with
  | Embedder, Embedder | Framed, Framed => true
  | _, _ => false
  end.

(** Whether an object made in realm [r] is an instance of a constructor
    named by the code of the interceptor. *)
Definition here (r : t) : bool := eqb r Embedder.

End Realm.

(** ** Transferable objects *)

Module Transfer.

(** The constructors an item of a transfer list may be an instance of;
    [PlainObject] stands for every object that is an instance of none of
    the transferable interfaces. *)
Inductive JsClass :=
| ArrayBuffer | MessagePort | ImageBitmap | OffscreenCanvas
| ReadableStream | WritableStream | TransformStream | PlainObject.

Definition JsClass_eqb (a b : JsClass) : bool :=
  match a, b with
  | ArrayBuffer, ArrayBuffer | MessagePort, MessagePort
  | ImageBitmap, ImageBitmap | OffscreenCanvas, OffscreenCanvas
  | ReadableStream, ReadableStream | WritableStream, WritableStream
  | TransformStream, TransformStream | PlainObject, PlainObject => true
  | _, _ => false
  end.

(** [constructor.name] of an object of the class. *)
Definition class_name (c : JsClass) : string :=
  match c with
  | ArrayBuffer => "ArrayBuffer"
  | MessagePort => "MessagePort"
  | ImageBitmap => "ImageBitmap"
  | OffscreenCanvas => "OffscreenCanvas"
  | ReadableStream => "ReadableStream"
  | WritableStream => "WritableStream"
  | TransformStream => "TransformStream"
  | PlainObject => "Object"
  end.

(** An object: its interface, the realm whose constructor made it, and
    its identity. *)
Record Item := { cls : JsClass; realm : Realm.t; ident : nat }.

(** Which of the optional globals the runtime defines:
    [typeof C !== "undefined"]. *)
Record Runtime := {
  has_ImageBitmap : bool;
  has_OffscreenCanvas : bool;
  has_ReadableStream : bool;
  has_WritableStream : bool;
  has_TransformStream : bool
}.

(** [item instanceof C] in the code of the interceptor: [C] is the
    embedding page's constructor, and an object made by the constructor of
    another realm is not an instance of it. *)
Definition instanceof (item : Item) (c : JsClass) : bool :=
  Realm.here (realm item) && JsClass_eqb (cls item) c.

(** The predicate passed to [transfer.filter] *)
Definition validTransferable (rt : Runtime) (item : Item) : bool :=
  instanceof item ArrayBuffer ||
  instanceof item MessagePort ||
  (has_ImageBitmap rt && instanceof item ImageBitmap) ||
  (has_OffscreenCanvas rt && instanceof item OffscreenCanvas) ||
  (has_ReadableStream rt && instanceof item ReadableStream) ||
  (has_WritableStream rt && instanceof item WritableStream) ||
  (has_TransformStream rt && instanceof item TransformStream).

(** [filterValidTransferables(transfer)] *)
Definition filterValidTransferables (rt : Runtime) (transfer : list Item) : list Item :=
  filter (validTransferable rt) transfer.

(** What the specification calls legally transferable in a runtime: binary
    buffers and message endpoints always, bitmap, canvas and stream
    handles when the runtime has them. *)
Inductive LegallyTransferable (rt : Runtime) : Item -> Prop :=
| LT_buffer i : cls i = ArrayBuffer -> LegallyTransferable rt i
| LT_port i : cls i = MessagePort -> LegallyTransferable rt i
| LT_bitmap i : has_ImageBitmap rt = true -> cls i = ImageBitmap -> LegallyTransferable rt i
| LT_canvas i : has_OffscreenCanvas rt = true -> cls i = OffscreenCanvas -> LegallyTransferable rt i
| LT_rstream i : has_ReadableStream rt = true -> cls i = ReadableStream -> LegallyTransferable rt i
| LT_wstream i : has_WritableStream rt = true -> cls i = WritableStream -> LegallyTransferable rt i
| LT_tstream i : has_TransformStream rt = true -> cls i = TransformStream -> LegallyTransferable rt i.

(** [sub] keeps some entries of [l], in their order. *)
Inductive Subsequence {A : Type} : list A -> list A -> Prop :=
| Sub_nil : Subsequence [] []
| Sub_keep x sub l : Subsequence sub l -> Subsequence (x :: sub) (x :: l)
| Sub_drop x sub l : Subsequence sub l -> Subsequence sub (x :: l).

End Transfer.

(** ** The document tree *)

Module Dom.

Inductive Namespace := HTML | SVG | OtherNS.

Definition is_html (n : Namespace) : bool :=
  match n with HTML => true | _ => false end.

(** An element: namespace, local name, attribute list, the value of its
    [href] property (the resolved absolute address of an anchor; the empty
    string when the element has none), and the realm whose document created
    it, which is where its prototype chain lives. *)
Record Element := {
  ns : Namespace;
  localName : string;
  attributes : list (string * string);
  href : string;
  realm : Realm.t
}.

Inductive Node :=
| Text (data : string)
| Elem (e : Element) (children : list Node).

(** A node is addressed by the child indices leading to it from the root;
    [parentElement] drops the last index. *)
Definition Path := list nat.

Fixpoint lookup (n : Node) (p : Path) : option Node :=
  match p with
  | [] => Some n
  | i :: p' =>
      match n with
      | Text _ => None
      | Elem _ cs =>
          match nth_error cs i with
          | Some c => lookup c p'
          | None => None
          end
      end
  end.

(** The element at a path ([None] for a text node or a dangling path). *)
Definition elem_at (n : Node) (p : Path) : option Element :=
  match lookup n p with
  | Some (Elem e _) => Some e
  | _ => None
  end.

(** [node.nodeType] *)
Definition nodeType (n : Node) : nat :=
  match n with Text _ => 3 | Elem _ _ => 1 end.

(** [el.tagName]: upper-cased for an HTML element of an HTML document. *)
Definition tagName (e : Element) : string :=
  if is_html (ns e) then Str.toUpperCase (localName e) else localName e.

(** [el instanceof HTMLElement] in the code of the interceptor, whose
    [HTMLElement] is the embedding page's. *)
Definition isHTMLElement (e : Element) : bool :=
  Realm.here (realm e) && is_html (ns e).

(** [el instanceof HTMLAnchorElement], likewise. *)
Definition isHTMLAnchorElement (e : Element) : bool :=
  Realm.here (realm e) && is_html (ns e) && String.eqb (localName e) "a".

(** [el.getAttribute(name)] *)
Fixpoint assoc (name : string) (attrs : list (string * string)) : option string :=
  match attrs with
  | [] => None
  | (k, v) :: rest => if String.eqb k name then Some v else assoc name rest
  end.

Definition getAttribute (e : Element) (name : string) : option string :=
  assoc name (attributes e).

(** [el.removeAttribute(name)] *)
Definition removeAttribute (name : string) (e : Element) : Element :=
  {| ns := ns e;
     localName := localName e;
     attributes := filter (fun kv => negb (String.eqb (fst kv) name)) (attributes e);
     href := href e;
     realm := realm e |}.

Fixpoint update_nth {A : Type} (i : nat) (f : A -> A) (l : list A) : list A :=
  match l, i with
  | [], _ => []
  | x :: l', 0 => f x :: l'
  | x :: l', S i' => x :: update_nth i' f l'
  end.

(** In-place change of the element at a path; the tree keeps its shape. *)
Fixpoint update (f : Element -> Element) (p : Path) (n : Node) : Node :=
  match p with
  | [] => match n with
          | Text d => Text d
          | Elem e cs => Elem (f e) cs
          end
  | i :: p' =>
      match n with
      | Text d => Text d
      | Elem e cs => Elem e (update_nth i (update f p') cs)
      end
  end.

(** The proper descendants of a node in document order, as paths
    relative to it: child [i], what is below child [i], child [i+1], ... *)
Definition children_paths (below : Node -> list (list nat))
  : nat -> list Node -> list (list nat) :=
  fix go (i : nat) (cs : list Node) : list (list nat) :=
    match cs with
    | [] => []
    | c :: cs' => ((i :: []) :: map (cons i) (below c)) ++ go (S i) cs'
    end.

Fixpoint descendants (n : Node) : list (list nat) :=
  match n with
  | Text _ => []
  | Elem _ cs => children_paths descendants 0 cs
  end.

(** A new-context marker: the value of [target] that asks for a new tab
    or a new window. *)
Definition isNewContextMarker (targetAttr : option string) : bool :=
  match targetAttr with
  | Some v => String.eqb v "_blank" || String.eqb v "_new"
  | None => false
  end.

(** The attribute selector [[target="lit"]]: the values of [target] are
    compared ASCII case-insensitively on an HTML element of an HTML
    document, exactly elsewhere. *)
Definition attr_selector_matches (e : Element) (lit : string) : bool :=
  match getAttribute e "target" with
  | Some v =>
      if is_html (ns e) then String.eqb (Str.toLowerCase v) lit else String.eqb v lit
  | None => false
  end.

(** The selector [a[target="_blank"], a[target="_new"]] *)
Definition matches_selector (e : Element) : bool :=
  String.eqb (localName e) "a" &&
  (attr_selector_matches e "_blank" || attr_selector_matches e "_new").

(** [node.querySelectorAll('a[target="_blank"], a[target="_new"]')] for
    the node at path [p] of the document: the matching proper descendants. *)
Definition querySelectorAll (doc : Node) (p : Path) : list Path :=
  match lookup doc p with
  | Some n =>
      filter (fun q => match elem_at n q with
                       | Some e => matches_selector e
                       | None => false
                       end) (descendants n)
  | None => []
  end.

(** The loop of the click listener: from the event target up through
    [parentElement] to the first element whose [tagName] is ["A"]. The
    argument is the path of the target, last index first. *)
Fixpoint closest_anchor_rev (doc : Node) (rp : list nat) : option Path :=
  let up := match rp with
            | [] => None
            | _ :: rp' => closest_anchor_rev doc rp'
            end in
  match elem_at doc (rev rp) with
  | Some e => if String.eqb (tagName e) "A" then Some (rev rp) else up
  | None => up
  end.

Definition closest_anchor (doc : Node) (target : Path) : option Path :=
  closest_anchor_rev doc (rev target).

(** *** Relations between states of a document *)

(** [y] is the element [x] with its [target] attribute kept or removed. *)
Definition SameButTarget (x y : Element) : Prop :=
  ns y = ns x /\ localName y = localName x /\ href y = href x /\
  realm y = realm x /\
  (getAttribute y "target" = getAttribute x "target" \/ getAttribute y "target" = None).

(** [root'] is [root] with the [target] attribute removed from some of its
    elements. *)
Definition StripsOf (root root' : Node) : Prop :=
  forall p,
    match elem_at root p with
    | Some x => exists y, elem_at root' p = Some y /\ SameButTarget x y
    | None => elem_at root' p = None
    end.

(** The node at [p] is an element without [target] attribute. *)
Definition Stripped (root : Node) (p : Path) : Prop :=
  exists y, elem_at root p = Some y /\ getAttribute y "target" = None.

End Dom.

(** ** Values, effects and the state of the page *)

Module Js.

(** A thrown value: whether it is a [DOMException] of some realm, its
    [name], and the realm that made it. A primitive of the platform raises
    its errors in the realm of the window it belongs to. *)
Record JsError := { isDOMException : bool; name : string; realm : Realm.t }.

(** Raised to the embedding page when it touches a window of another
    origin. *)
Definition SecurityError : JsError :=
  {| isDOMException := true; name := "SecurityError"; realm := Realm.Embedder |}.

(** The data-clone violation as a window of realm [r] raises it. *)
Definition DataCloneError (r : Realm.t) : JsError :=
  {| isDOMException := true; name := "DataCloneError"; realm := r |}.

Definition TypeError : JsError :=
  {| isDOMException := false; name := "TypeError"; realm := Realm.Embedder |}.


(** [error instanceof DOMException && error.name === "DataCloneError"] in
    the code of the interceptor, whose [DOMException] is the embedding
    page's. *)
Definition isDataCloneError (e : JsError) : bool :=
  (isDOMException e && Realm.here (realm e)) && String.eqb (name e) "DataCloneError".

Inductive Result (A : Type) :=
| Ok (a : A)
| Throw (e : JsError).
Arguments Ok {A} a.
Arguments Throw {A} e.

(** The message of a send: a primitive value, a platform object such as
    a port or a buffer, an object with its own enumerable properties, or,
    as the value of a property, one of the objects that enclose it: the
    place where the object graph closes a cycle. (An object reached twice
    without a cycle is written out at both places.) *)
Inductive Message :=
| MPrimitive (id : nat)
| MHandle (item : Transfer.Item)
| MObject (fields : list (string * Message))
| MAncestor.

(** The value reached from a message through a chain of own properties,
    each given by its position among the own properties of its holder. *)
Fixpoint value_at (m : Message) (path : list nat) : option Message :=
  match path with
  | [] => Some m
  | i :: path' =>
      match m with
      | MObject fields =>
          match nth_error fields i with
          | Some (_, v) => value_at v path'
          | None => None
          end
      | _ => None
      end
  end.

(** [WindowPostMessageOptions] *)
Record PostMessageOptions := {
  targetOrigin : option string;
  transfer : option (list Transfer.Item)
}.

(** The second argument of [postMessage] as the wrapper receives it:
    a string, an options object, an array, or anything else
    ([undefined], [null], a number, ...). *)
Inductive SecondArg :=
| ArgString (s : string)
| ArgOptions (o : PostMessageOptions)
| ArgArray
| ArgOther.

(** The two ways the original primitive is invoked:
    [original(message, options)] and
    [original(message, targetOrigin, transfer)]. *)
Inductive PMCall :=
| CallOptions (m : Message) (o : PostMessageOptions)
| CallOrigin (m : Message) (origin : string) (transfer : option (list Transfer.Item)).

(** The first argument of [open]: a string or a [URL] object. *)
Inductive UrlArg :=
| UrlString (s : string)
| UrlObject (href : string).

Record OpenArgs := {
  url : option UrlArg;
  target : option string;
  features : option string
}.

Inductive JsValue :=
| VNull
| VUndefined
| VString (s : string)
| VNumber (n : nat).

(** The traps of a [Proxy] handler. *)
Record ProxyHandler := {
  get_trap : string -> JsValue;
  set_trap : string -> JsValue -> bool
}.

(** What [open] returns when it is not [null]: a window of the platform,
    or a proxy over an empty object. *)
Inductive WindowRef :=
| RealWindow (id : nat)
| ProxyWindow (h : ProxyHandler).

Inductive LogLevel := Log | Warn | Error.

(** What the code does to the world outside the realm, in order. *)
Inductive Event :=
| Console (lvl : LogLevel) (msg : string)
| NativePostMessage (c : PMCall)
| NativeOpen (args : OpenArgs)
| SetSrc (address : string).

(** The value of [postMessage]: the platform's primitive, or the wrapper
    of [fixPostMessage] closed over the value it replaced. *)
Inductive PMFn :=
| NativePM
| PMWrapper (originalPostMessage : PMFn).

(** The value of [open]: the platform's primitive, or the override of
    [injectIframeInterceptor] closed over [originalOpen] and [onNavigate]. *)
Inductive OpenFn :=
| NativeOpenFn
| OpenOverride (originalOpen : option OpenFn) (onNavigate : string -> list Event).

Inductive ReadyState := Loading | Interactive | Complete.

Inductive Handler :=
| ClickInterceptor (onNavigate : string -> list Event)
| InterceptTargetBlank (onNavigate : string -> list Event).

(** [addEventListener(type, handler, capture)] *)
Record Listener := {
  ltype : string;
  handler : Handler;
  capture : bool
}.

(** [observer.observe(target, { childList, subtree })] *)
Record Observer := {
  observed : Dom.Path;
  childList : bool;
  subtree : bool
}.

Record MutationRecord := {
  mtarget : Dom.Path;
  addedNodes : list Dom.Path
}.

Record Document := {
  readyState : ReadyState;
  listeners : list Listener;
  observers : list Observer;
  documentElement : option Dom.Node
}.

(** A realm. A cross-origin realm raises [SecurityError] on every access
    the platform does not allow across origins; reading [postMessage] is
    allowed. *)
Record Window := {
  cross_origin : bool;
  postMessage : option PMFn;
  open : option OpenFn;
  document : Document
}.

Inductive LoadListener := HandleIframeLoad.

Record Iframe := {
  contentWindow : option Window;
  loadListeners : list LoadListener
}.

Record St := {
  frame : Iframe;
  trace : list Event
}.

Record ClickEvent := {
  etarget : Dom.Path;
  defaultPrevented : bool;
  propagationStopped : bool
}.

(** The platform underneath the patches: the primitives of the window
    that is patched, and the runtime and encoder of the embedding page. The
    primitives answer from the history of effects so far. *)
Record Platform := {
  runtime : Transfer.Runtime;
  native_postMessage : list Event -> PMCall -> option JsError;
  native_open : list Event -> OpenArgs -> option WindowRef;
  encodeURL : string -> string
}.

(** In a browser the window that is patched is the frame's, and its
    primitives raise their errors in the realm of the frame. *)
Definition raises_in_frame_realm (pf : Platform) : Prop :=
  forall tr c e, native_postMessage pf tr c = Some e -> realm e = Realm.Framed.

(** *** Computations: state and exceptions *)

Definition M (A : Type) : Type := St -> Result A * St.

Definition ret {A : Type} (a : A) : M A := fun st => (Ok a, st).

Definition bind {A B : Type} (m : M A) (k : A -> M B) : M B :=
  fun st =>
    match m st with
    | (Ok a, st') => k a st'
    | (Throw e, st') => (Throw e, st')
    end.

Definition throw {A : Type} (e : JsError) : M A := fun st => (Throw e, st).

(** [try { m } catch (e) { h e }]: what [m] did before it threw stays done. *)
Definition try_catch {A : Type} (m : M A) (h : JsError -> M A) : M A :=
  fun st =>
    match m st with
    | (Ok a, st') => (Ok a, st')
    | (Throw e, st') => h e st'
    end.

Definition emit (evs : list Event) : M unit :=
  fun st => (Ok tt, {| frame := frame st; trace := trace st ++ evs |}).

Definition console (lvl : LogLevel) (msg : string) : M unit :=
  emit [Console lvl msg].

(** A state after some more effects. *)
Definition logged (st : St) (evs : list Event) : St :=
  {| frame := frame st; trace := trace st ++ evs |}.

Definition get_trace : M (list Event) := fun st => (Ok (trace st), st).

Definition get_frame : M Iframe := fun st => (Ok (frame st), st).

Definition put_frame (f : Iframe) : M unit :=
  fun st => (Ok tt, {| frame := f; trace := trace st |}).

(** *** Reading a send *)

Definition call_message (c : PMCall) : Message :=
  match c with CallOptions m _ => m | CallOrigin m _ _ => m end.

(** The transfer list of a call, if it has one. *)
Definition call_transfer (c : PMCall) : option (list Transfer.Item) :=
  match c with CallOptions _ o => transfer o | CallOrigin _ _ t => t end.


Definition entries (t : option (list Transfer.Item)) : list Transfer.Item :=
  match t with Some l => l | None => [] end.

(** The transfer list a caller hands to the patched primitive, in either
    calling convention. *)
Definition requested_transfer (a : SecondArg) (t : option (list Transfer.Item))
  : option (list Transfer.Item) :=
  match a with ArgOptions o => transfer o | _ => t end.

End Js.

Declare Scope js_scope.
Delimit Scope js_scope with js.
Notation "x <- m ;; k" := (Js.bind m (fun x => k))
  (at level 61, m at next level, right associativity) : js_scope.
Notation "m ;;; k" := (Js.bind m (fun _ => k))
  (at level 61, right associativity) : js_scope.

(** ** The interceptor (iframe-interceptor.ts) *)

Module Interceptor.
Import Js.
Local Open Scope js_scope.

Section WithPlatform.

Variable pf : Platform.

(** *** fixPostMessage *)

(** The platform's primitive: the call is recorded, and fails or not as
    the platform decides. *)
Definition native_pm_call (c : PMCall) : M unit :=
  tr <- get_trace ;;
  emit [NativePostMessage c] ;;;
  match native_postMessage pf tr c with
  | None => ret tt
  | Some e => throw e
  end.

(** [{ ...targetOriginOrOptions }] read as options; an array has neither
    a [targetOrigin] nor a [transfer] property. *)
Definition spread_options (a : SecondArg) : option PostMessageOptions :=
  match a with
  | ArgOptions o => Some o
  | ArgArray => Some {| targetOrigin := None; transfer := None |}
  | _ => None
  end.

(** [typeof x === "string" ? x : "*"] *)
Definition origin_or_star (a : SecondArg) : string :=
  match a with ArgString s => s | _ => "*" end.

(** [t && Array.isArray(t) ? filterValidTransferables(t) : undefined] *)
Definition filter_transfer (t : option (list Transfer.Item)) : option (list Transfer.Item) :=
  match t with
  | Some l => Some (Transfer.filterValidTransferables (runtime pf) l)
  | None => None
  end.

(** The arguments the [try] block of the wrapper computes for its
    original: [(message, options)] with the options copied and their
    transfer list filtered, or [(message, targetOrigin, validTransfer)]. *)
Definition attempt_call (message : Message) (targetOriginOrOptions : SecondArg)
    (transfer_arg : option (list Transfer.Item)) : PMCall :=
  match targetOriginOrOptions with
  | ArgOptions o =>
      let options := {| targetOrigin := targetOrigin o;
                        transfer := filter_transfer (transfer o) |} in
      CallOptions message options
  | _ =>
      let targetOrigin := origin_or_star targetOriginOrOptions in
      let validTransfer := filter_transfer transfer_arg in
      CallOrigin message targetOrigin validTransfer
  end.

(** The body of the [try] block of the wrapper. *)
Definition wrapper_attempt (originalPostMessage : PMCall -> M unit)
    (message : Message) (targetOriginOrOptions : SecondArg)
    (transfer_arg : option (list Transfer.Item)) : M unit :=
  originalPostMessage (attempt_call message targetOriginOrOptions transfer_arg).

(** The arguments of the retry: [(message, fallbackOptions)] with the
    [transfer] property deleted, or [(message, fallbackOrigin)]. *)
Definition fallback_call (message : Message) (targetOriginOrOptions : SecondArg) : PMCall :=
  match spread_options targetOriginOrOptions with
  | Some o =>
      let fallbackOptions := {| targetOrigin := targetOrigin o; transfer := None |} in
      CallOptions message fallbackOptions
  | None =>
      let fallbackOrigin := origin_or_star targetOriginOrOptions in
      CallOrigin message fallbackOrigin None
  end.

(** The retry inside the [catch] block. *)
Definition wrapper_retry (originalPostMessage : PMCall -> M unit)
    (message : Message) (targetOriginOrOptions : SecondArg) : M unit :=
  try_catch
    (originalPostMessage (fallback_call message targetOriginOrOptions))
    (fun retryError =>
       console Error "[Iframe Interceptor] postMessage retry failed:" ;;;
       throw retryError).

(** The function [fixPostMessage] assigns to [targetWindow.postMessage]. *)
Definition wrapper (originalPostMessage : PMCall -> M unit)
    (message : Message) (targetOriginOrOptions : SecondArg)
    (transfer_arg : option (list Transfer.Item)) : M unit :=
  try_catch
    (wrapper_attempt originalPostMessage message targetOriginOrOptions transfer_arg)
    (fun error =>
       if isDataCloneError error then
         console Warn "[Iframe Interceptor] postMessage failed with DataCloneError, retrying without transfer" ;;;
         wrapper_retry originalPostMessage message targetOriginOrOptions
       else throw error).

(** The arguments a call of the original arrives with. *)
Definition args_of_call (c : PMCall) : Message * SecondArg * option (list Transfer.Item) :=
  match c with
  | CallOptions m o => (m, ArgOptions o, None)
  | CallOrigin m s t => (m, ArgString s, t)
  end.

(** Calling a value of [postMessage] the way a wrapper calls its
    original. *)
Fixpoint invoke_pm (f : PMFn) (c : PMCall) : M unit :=
  match f with
  | NativePM => native_pm_call c
  | PMWrapper original =>
      let '(m, a, t) := args_of_call c in
      wrapper (invoke_pm original) m a t
  end.

(** [targetWindow.postMessage(message, targetOriginOrOptions, transfer)]
    on a patched window. *)
Definition call_wrapper (original : PMFn) (message : Message)
    (targetOriginOrOptions : SecondArg)
    (transfer_arg : option (list Transfer.Item)) : M unit :=
  wrapper (invoke_pm original) message targetOriginOrOptions transfer_arg.


(** *** The override of window.open *)

(** [!url] *)
Definition url_falsy (u : option UrlArg) : bool :=
  match u with
  | None => true
  | Some (UrlString s) => String.eqb s ""
  | Some (UrlObject _) => false
  end.

(** [url.toString()] *)
Definition url_toString (u : UrlArg) : string :=
  match u with UrlString s => s | UrlObject h => h end.

(** [new Proxy({}, { get() { return null }, set() { return true } })] *)
Definition inert_handler : ProxyHandler :=
  {| get_trap := fun _ => VNull; set_trap := fun _ _ => true |}.

(** Reading [w.p] and executing [w.p = v] on what [open] returned: a
    proxy answers through its traps, and an assignment whose [set] trap
    answers [false] throws in strict code. Properties of a window of the
    platform are not modelled. *)
Definition read_property (w : WindowRef) (p : string) : option JsValue :=
  match w with
  | ProxyWindow h => Some (get_trap h p)
  | RealWindow _ => None
  end.

Definition write_property (w : WindowRef) (p : string) (v : JsValue) : Result unit :=
  match w with
  | ProxyWindow h => if set_trap h p v then Ok tt else Throw TypeError
  | RealWindow _ => Ok tt
  end.

Definition native_open_call (args : OpenArgs) : M (option WindowRef) :=
  tr <- get_trace ;;
  emit [NativeOpen args] ;;;
  ret (native_open pf tr args).

(** The function [injectIframeInterceptor] assigns to
    [iframeWindow.open]. [if (!url)] holds when the argument is missing and
    when it is the empty string. *)
Definition open_override (originalOpen : option (OpenArgs -> M (option WindowRef)))
    (onNavigate : string -> list Event) (args : OpenArgs) : M (option WindowRef) :=
  match url args with
  | None =>
      console Warn "[Iframe Interceptor] window.open called without URL" ;;;
      ret None
  | Some u =>
      if url_falsy (Some u) then
        console Warn "[Iframe Interceptor] window.open called without URL" ;;;
        ret None
      else
        let urlString := url_toString u in
        if Interceptor_Domains.isCaptchaUrl urlString then
          console Log ("[Iframe Interceptor] Allowing CAPTCHA window.open: " ++ urlString)%string ;;;
          match originalOpen with
          | Some original => original args
          | None => ret None
          end
        else
          console Log ("[Iframe Interceptor] Intercepted window.open: " ++ urlString)%string ;;;
          emit (onNavigate urlString) ;;;
          ret (Some (ProxyWindow inert_handler))
  end.

Fixpoint call_open (f : OpenFn) (args : OpenArgs) : M (option WindowRef) :=
  match f with
  | NativeOpenFn => native_open_call args
  | OpenOverride originalOpen onNavigate =>
      open_override
        (match originalOpen with
         | Some original => Some (call_open original)
         | None => None
         end) onNavigate args
  end.


(** *** Access to the realm *)

Definition the_window : M Window :=
  f <- get_frame ;;
  match contentWindow f with
  | Some w => ret w
  | None => throw TypeError
  end.

Definition put_window (w : Window) : M unit :=
  f <- get_frame ;;
  put_frame {| contentWindow := Some w; loadListeners := loadListeners f |}.

(** An access the platform refuses across origins. *)
Definition same_origin_only {A : Type} (w : Window) (a : A) : M A :=
  if cross_origin w then throw SecurityError else ret a.

(** [iframeWindow.open] *)
Definition read_open : M (option OpenFn) :=
  w <- the_window ;; same_origin_only w (open w).

(** [iframeWindow.open = f] *)
Definition write_open (f : OpenFn) : M unit :=
  w <- the_window ;;
  same_origin_only w tt ;;;
  put_window {| cross_origin := cross_origin w; postMessage := postMessage w;
                open := Some f; document := document w |}.

(** [targetWindow.postMessage = f] *)
Definition write_postMessage (f : PMFn) : M unit :=
  w <- the_window ;;
  same_origin_only w tt ;;;
  put_window {| cross_origin := cross_origin w; postMessage := Some f;
                open := open w; document := document w |}.

(** [iframeWindow.document] *)
Definition read_document : M Document :=
  w <- the_window ;; same_origin_only w (document w).

(** Changes made through a document reference already obtained. *)
Definition put_document (d : Document) : M unit :=
  w <- the_window ;;
  put_window {| cross_origin := cross_origin w; postMessage := postMessage w;
                open := open w; document := d |}.

Definition addEventListener (l : Listener) : M unit :=
  w <- the_window ;;
  let d := document w in
  put_document {| readyState := readyState d; listeners := listeners d ++ [l];
                  observers := observers d; documentElement := documentElement d |}.

Definition observe (o : Observer) : M unit :=
  w <- the_window ;;
  let d := document w in
  put_document {| readyState := readyState d; listeners := listeners d;
                  observers := observers d ++ [o]; documentElement := documentElement d |}.

Definition put_tree (root : Dom.Node) : M unit :=
  w <- the_window ;;
  let d := document w in
  put_document {| readyState := readyState d; listeners := listeners d;
                  observers := observers d; documentElement := Some root |}.

(** [fixPostMessage(targetWindow)] *)
Definition fixPostMessage : M unit :=
  f <- get_frame ;;
  match contentWindow f with
  | None => ret tt
  | Some w =>
      match postMessage w with
      | None => ret tt
      | Some originalPostMessage =>
          try_catch
            (write_postMessage (PMWrapper originalPostMessage))
            (fun _ => console Warn "[Iframe Interceptor] Could not fix postMessage:")
      end
  end.

(** *** Link interception *)

Definition dquote : string := String (ascii_of_nat 34) EmptyString.

Definition intercepted_link_message (href : string) : string :=
  ("[Iframe Interceptor] Intercepted target=" ++ dquote ++ "_blank" ++ dquote
     ++ " link: " ++ href)%string.

(** The click listener of [interceptTargetBlank]: the event after it ran
    and what it did. *)
Definition click_listener (onNavigate : string -> list Event)
    (root : Dom.Node) (ev : ClickEvent) : ClickEvent * list Event :=
  match Dom.closest_anchor root (etarget ev) with
  | Some a =>
      match Dom.elem_at root a with
      | Some anchor =>
          let targetAttr := Dom.getAttribute anchor "target" in
          if Dom.isNewContextMarker targetAttr then
            let ev' := {| etarget := etarget ev;
                          defaultPrevented := true;
                          propagationStopped := true |} in
            let href := Dom.href anchor in
            if String.eqb href "" then (ev', [])
            else
              (ev', Console Log (intercepted_link_message href) :: onNavigate href)
          else (ev, [])
      | None => (ev, [])
      end
  | None => (ev, [])
  end.

(** The body of [mutation.addedNodes.forEach]: what the observer does
    with one added node of the tree. *)
Definition strip_added_node (root : Dom.Node) (p : Dom.Path) : Dom.Node :=
  match Dom.lookup root p with
  | Some (Dom.Elem e _) =>
      if Dom.isHTMLAnchorElement e then
        if Dom.isNewContextMarker (Dom.getAttribute e "target")
        then Dom.update (Dom.removeAttribute "target") p root
        else root
      else if Dom.isHTMLElement e then
        fold_left
          (fun r q => Dom.update (Dom.removeAttribute "target") (p ++ q) r)
          (Dom.querySelectorAll root p) root
      else root
  | _ => root
  end.

(** The two shapes of insertion the observer handles: the added node is
    itself a marked HTML anchor, or the marked anchor lies strictly below an
    added HTML element that is not an anchor. *)
Definition Handled (root : Dom.Node) (r q : Dom.Path) (x : Dom.Element) : Prop :=
  (q = [] /\ Dom.isHTMLAnchorElement x = true) \/
  (q <> [] /\ Dom.localName x = "a" /\
   exists e, Dom.elem_at root r = Some e /\
             Dom.isHTMLElement e = true /\ Dom.isHTMLAnchorElement e = false).

(** The callback of the [MutationObserver]. *)
Definition observer_callback (mutations : list MutationRecord) (root : Dom.Node) : Dom.Node :=
  fold_left (fun r m => fold_left strip_added_node (addedNodes m) r) mutations root.

(** [doc.body]: the first [body] or [frameset] child of the [html] root. *)
Definition is_body (n : Dom.Node) : bool :=
  match n with
  | Dom.Elem e _ =>
      Dom.is_html (Dom.ns e) &&
      (String.eqb (Dom.localName e) "body" || String.eqb (Dom.localName e) "frameset")
  | Dom.Text _ => false
  end.

Fixpoint find_index {A : Type} (f : A -> bool) (l : list A) (i : nat) : option nat :=
  match l with
  | [] => None
  | x :: l' => if f x then Some i else find_index f l' (S i)
  end.

Definition body (d : Document) : option Dom.Path :=
  match documentElement d with
  | Some (Dom.Elem e cs) =>
      if Dom.is_html (Dom.ns e) && String.eqb (Dom.localName e) "html" then
        match find_index is_body cs 0 with
        | Some i => Some [i]
        | None => None
        end
      else None
  | _ => None
  end.

(** [doc.body || doc.documentElement] *)
Definition observeTarget (d : Document) : option Dom.Path :=
  match body d with
  | Some b => Some b
  | None =>
      match documentElement d with
      | Some _ => Some []
      | None => None
      end
  end.

(** [interceptTargetBlank()] *)
Definition interceptTargetBlank (onNavigate : string -> list Event) : M unit :=
  doc <- read_document ;;
  addEventListener {| ltype := "click"; handler := ClickInterceptor onNavigate; capture := true |} ;;;
  match observeTarget doc with
  | Some t => observe {| observed := t; childList := true; subtree := true |}
  | None => console Warn "[Iframe Interceptor] No valid target for MutationObserver"
  end.

(** [injectIframeInterceptor(iframeWindow, onNavigate)] on the frame's
    content window. *)
Definition injectIframeInterceptor (onNavigate : string -> list Event) : M unit :=
  f <- get_frame ;;
  match contentWindow f with
  | None => console Warn "Cannot inject interceptor: iframe window is null"
  | Some _ =>
      try_catch
        (fixPostMessage ;;;
         originalOpen <- read_open ;;
         write_open (OpenOverride originalOpen onNavigate) ;;;
         doc <- read_document ;;
         match readyState doc with
         | Loading =>
             addEventListener {| ltype := "DOMContentLoaded";
                                 handler := InterceptTargetBlank onNavigate;
                                 capture := false |}
         | _ => interceptTargetBlank onNavigate
         end ;;;
         console Log "[Iframe Interceptor] Successfully injected interceptor")
        (fun _ => console Warn "[Iframe Interceptor] Could not inject (likely cross-origin):")
  end.

(** *** Frame attachment *)

(** The callback [setupIframeInterceptor] passes as [onNavigate]:
    [iframe.src = encodeURL(url)]. *)
Definition navigate_frame (url : string) : list Event := [SetSrc (encodeURL pf url)].

Definition handleIframeLoad : M unit :=
  f <- get_frame ;;
  match contentWindow f with
  | None => console Warn "Iframe contentWindow is null"
  | Some _ => injectIframeInterceptor navigate_frame
  end.

(** [setupIframeInterceptor(iframe, encodeURL)] *)
Definition setupIframeInterceptor : M unit :=
  f <- get_frame ;;
  put_frame {| contentWindow := contentWindow f;
               loadListeners := loadListeners f ++ [HandleIframeLoad] |} ;;;
  match contentWindow f with
  | Some _ =>
      doc <- read_document ;;
      match readyState doc with
      | Complete => handleIframeLoad
      | _ => ret tt
      end
  | None => ret tt
  end.

(** *** The platform delivering events *)

Fixpoint run_all (ms : list (M unit)) : M unit :=
  match ms with
  | [] => ret tt
  | m :: ms' => m ;;; run_all ms'
  end.

(** A [load] event of the frame. *)
Definition fire_load : M unit :=
  f <- get_frame ;;
  run_all (map (fun l => match l with HandleIframeLoad => handleIframeLoad end) (loadListeners f)).


(** One listener of the document receiving a click in the capture phase. *)
Definition deliver_click (l : Listener) (ev : ClickEvent) : M ClickEvent :=
  match handler l with
  | ClickInterceptor cb =>
      if String.eqb (ltype l) "click" && capture l then
        w <- the_window ;;
        match documentElement (document w) with
        | Some root =>
            let '(ev', evs) := click_listener cb root ev in
            emit evs ;;; ret ev'
        | None => ret ev
        end
      else ret ev
  | InterceptTargetBlank _ => ret ev
  end.

Fixpoint deliver_clicks (ls : list Listener) (ev : ClickEvent) : M ClickEvent :=
  match ls with
  | [] => ret ev
  | l :: ls' => ev' <- deliver_click l ev ;; deliver_clicks ls' ev'
  end.

(** A pointer activation on the node at [target]: the capture-phase
    listeners of the document run in the order they were added. *)
Definition dispatch_click (target : Dom.Path) : M ClickEvent :=
  w <- the_window ;;
  deliver_clicks (listeners (document w))
    {| etarget := target; defaultPrevented := false; propagationStopped := false |}.

Fixpoint is_prefix (p q : Dom.Path) : bool :=
  match p, q with
  | [], _ => true
  | _ :: _, [] => false
  | i :: p', j :: q' => Nat.eqb i j && is_prefix p' q'
  end.

(** One observation cycle: every observer is called back with the
    records of the mutations below the node it observes. *)
Definition deliver_mutations (o : Observer) (mutations : list MutationRecord) : M unit :=
  w <- the_window ;;
  match documentElement (document w) with
  | Some root =>
      let seen := filter (fun m => childList o &&
                                   (if subtree o then is_prefix (observed o) (mtarget m)
                                    else is_prefix (observed o) (mtarget m) &&
                                         is_prefix (mtarget m) (observed o)))
                         mutations in
      match seen with
      | [] => ret tt
      | _ => put_tree (observer_callback seen root)
      end
  | None => ret tt
  end.

Definition notify_observers (mutations : list MutationRecord) : M unit :=
  w <- the_window ;;
  run_all (map (fun o => deliver_mutations o mutations) (observers (document w))).

(** The page after [k] installations on the realm of the frame. *)
Fixpoint install_times (k : nat) (onNavigate : string -> list Event) (st : St) : St :=
  match k with
  | 0 => st
  | S k' => snd (injectIframeInterceptor onNavigate (install_times k' onNavigate st))
  end.

(** The redirects recorded in a trace. *)
Definition redirects (tr : list Event) : list string :=
  flat_map (fun ev => match ev with SetSrc a => [a] | _ => [] end) tr.

(** The calls of the platform's [open] recorded in a trace. *)
Definition native_opens (tr : list Event) : list OpenArgs :=
  flat_map (fun ev => match ev with NativeOpen a => [a] | _ => [] end) tr.

(** The calls of the platform's [postMessage] recorded in a trace. *)
Definition native_sends (tr : list Event) : list PMCall :=
  flat_map (fun ev => match ev with NativePostMessage c => [c] | _ => [] end) tr.

End WithPlatform.

End Interceptor.

(** ** The CAPTCHA handler (captcha-handler.ts) *)

Module CaptchaHandler.
Import Js.
Local Open Scope js_scope.

(** [CAPTCHA_DOMAINS] of captcha-handler.ts *)
Definition CAPTCHA_DOMAINS : list string :=
  [ "google.com"; "recaptcha.net"; "gstatic.com"; "hcaptcha.com";
    "cloudflare.com"; "challenges.cloudflare.com"; "yandex.com";
    "yandex.ru"; "smartcaptcha.yandexcloud.net" ].

(** The gate computed by the patched [fetch] (and by the patched
    [XMLHttpRequest.open]): [CAPTCHA_DOMAINS.some(d => url.includes(d))]. *)
Definition isCaptchaRequest (url : string) : bool :=
  Str.some (fun domain => Str.includes url domain) CAPTCHA_DOMAINS.

(** [item instanceof MessagePort || item?.constructor?.name === "MessagePort"]:
    a port of the handler's own realm passes the first test and, like a port
    of any other realm, the second. *)
Definition isMessagePort (item : Transfer.Item) : bool :=
  String.eqb (Transfer.class_name (Transfer.cls item)) "MessagePort".


(** [typeof message === "object"] for a message that is not [null]. *)
Definition is_object (m : Message) : bool :=
  match m with MPrimitive _ => false | _ => true end.




End CaptchaHandler.

(** ** The service worker *)

Module ServiceWorker.

Record Request := { url : string }.

Record Response := {
  status : nat;
  statusText : string;
  headers : list (string * string);
  body : string
}.

(** How an awaited promise settles. *)
Inductive Settled (A : Type) :=
| Fulfilled (a : A)
| Rejected (reason : string).
Arguments Fulfilled {A} a.
Arguments Rejected {A} reason.

(** What the listener runs on: the worker's origin, the configuration of
    the two proxies and the network. [net_fetch n] is the [n]-th call of
    [fetch] made while answering one event. *)
Record Env := {
  origin : string;
  uv_prefix : string;
  sj_loadConfig : Settled unit;
  uv_fetch : Request -> Settled Response;
  sj_route : Request -> Settled bool;
  sj_fetch : Request -> Settled Response;
  net_fetch : nat -> Request -> Settled Response
}.

(** [new Response("Proxy request failed", { status: 500, statusText: ... })] *)
Definition failure_response : Response :=
  {| status := 500;
     statusText := "Internal Server Error";
     headers := [("content-type", "text/plain;charset=UTF-8")];
     body := "Proxy request failed" |}.

(** The [try] block: the response, or the rejection, and how many times
    [fetch] was called. *)
Definition route (env : Env) (request : Request) : Settled Response * nat :=
  match sj_loadConfig env with
  | Rejected r => (Rejected r, 0)
  | Fulfilled _ =>
      if Str.startsWith (url request) (origin env ++ uv_prefix env)%string
      then (uv_fetch env request, 0)
      else
        match sj_route env request with
        | Rejected r => (Rejected r, 0)
        | Fulfilled true => (sj_fetch env request, 0)
        | Fulfilled false => (net_fetch env 0 request, 1)
        end
  end.

(** The promise handed to [event.respondWith]. *)
Definition respond (env : Env) (request : Request) : Response :=
  match route env request with
  | (Fulfilled r, _) => r
  | (Rejected _, n) =>
      match net_fetch env n request with
      | Fulfilled r => r
      | Rejected _ => failure_response
      end
  end.

(** [headers.get(name)], names compared without case. *)
Fixpoint header (name : string) (hs : list (string * string)) : option string :=
  match hs with
  | [] => None
  | (k, v) :: hs' =>
      if String.eqb (Str.toLowerCase k) (Str.toLowerCase name) then Some v
      else header name hs'
  end.

(** A response whose declared content type is HTML, as the specification
    classifies responses; the listener itself never looks at the type. *)
Definition is_html (r : Response) : bool :=
  match header "content-type" (headers r) with
  | Some v => Str.includes (Str.toLowerCase v) "text/html"
  | None => false
  end.

End ServiceWorker.

(** ** Concrete platforms, realms and documents *)

Module Scenario.
Import Js.

Definition full_runtime : Transfer.Runtime :=
  {| Transfer.has_ImageBitmap := true; Transfer.has_OffscreenCanvas := true;
     Transfer.has_ReadableStream := true; Transfer.has_WritableStream := true;
     Transfer.has_TransformStream := true |}.

Definition encode (u : string) : string := ("/~/scramjet/" ++ u)%string.

(** Every send succeeds; [open] answers with a window. *)
Definition quiet : Platform :=
  {| runtime := full_runtime;
     native_postMessage := fun _ _ => None;
     native_open := fun _ _ => Some (RealWindow 1);
     encodeURL := encode |}.



(** No message can be cloned. *)
Definition uncloneable : Platform :=
  {| runtime := full_runtime;
     native_postMessage := fun _ _ => Some (DataCloneError Realm.Framed);
     native_open := fun _ _ => Some (RealWindow 1);
     encodeURL := encode |}.

(** A message is cloned only when it is sent without a transfer list. *)
Definition picky : Platform :=
  {| runtime := full_runtime;
     native_postMessage := fun _ c =>
       match call_transfer c with
       | Some _ => Some (DataCloneError Realm.Framed)
       | None => None
       end;
     native_open := fun _ _ => Some (RealWindow 1);
     encodeURL := encode |}.

(** A buffer and a plain object made by the framed page, and a buffer
    made by the embedding page. *)
Definition buffer : Transfer.Item :=
  {| Transfer.cls := Transfer.ArrayBuffer; Transfer.realm := Realm.Framed; Transfer.ident := 1 |}.
Definition plain : Transfer.Item :=
  {| Transfer.cls := Transfer.PlainObject; Transfer.realm := Realm.Framed; Transfer.ident := 2 |}.
Definition embedder_buffer : Transfer.Item :=
  {| Transfer.cls := Transfer.ArrayBuffer; Transfer.realm := Realm.Embedder; Transfer.ident := 3 |}.

(** An element created by the framed document, as the parser and the
    scripts of the framed page create them. *)
Definition element (n : Dom.Namespace) (name : string)
    (attrs : list (string * string)) (h : string) : Dom.Element :=
  {| Dom.ns := n; Dom.localName := name; Dom.attributes := attrs; Dom.href := h;
     Dom.realm := Realm.Framed |}.

Definition html (name : string) (attrs : list (string * string))
    (children : list Dom.Node) : Dom.Node :=
  Dom.Elem (element Dom.HTML name attrs "") children.

Definition anchor (attrs : list (string * string)) (h : string)
    (children : list Dom.Node) : Dom.Node :=
  Dom.Elem (element Dom.HTML "a" attrs h) children.

Definition document_of (rs : ReadyState) (root : Dom.Node) : Document :=
  {| readyState := rs; listeners := []; observers := []; documentElement := Some root |}.

Definition window_of (cross : bool) (d : Document) : Window :=
  {| cross_origin := cross; postMessage := Some NativePM;
     open := Some NativeOpenFn; document := d |}.

Definition page_of (w : Window) : St :=
  {| frame := {| contentWindow := Some w; loadListeners := [] |}; trace := [] |}.

(** [<html><head></head><body><a target="_blank" href="https://x.test/p"><span>x</span></a></body></html>] *)
Definition linked_page : Dom.Node :=
  html "html" []
    [ html "head" [] [];
      html "body" []
        [ anchor [("href", "https://x.test/p"); ("target", "_blank")] "https://x.test/p"
            [ html "span" [] [Dom.Text "x"] ] ] ].

(** The same page with an anchor that has no [href]. *)
Definition hrefless_page : Dom.Node :=
  html "html" []
    [ html "head" [] [];
      html "body" [] [ anchor [("target", "_blank")] "" [Dom.Text "x"] ] ].

(** A page whose body received, by script, an anchor that holds a second
    anchor with a new-context marker. *)
Definition nested_anchor_page : Dom.Node :=
  html "html" []
    [ html "head" [] [];
      html "body" []
        [ anchor [("href", "/a")] "https://x.test/a"
            [ anchor [("href", "/b"); ("target", "_blank")] "https://x.test/b" [Dom.Text "b"] ] ] ].

(** A marked anchor around an anchor without marker (built by script). *)
Definition marked_outer_page : Dom.Node :=
  html "html" []
    [ html "head" [] [];
      html "body" []
        [ anchor [("href", "/a"); ("target", "_blank")] "https://x.test/a"
            [ anchor [("href", "/c")] "https://x.test/c" [Dom.Text "c"] ] ] ].

(** A page whose body received an [svg] element that holds, in a
    [foreignObject], an HTML anchor with a new-context marker. *)
Definition svg_page : Dom.Node :=
  html "html" []
    [ html "head" [] [];
      html "body" []
        [ Dom.Elem (element Dom.SVG "svg" [] "")
            [ Dom.Elem (element Dom.SVG "foreignObject" [] "")
                [ anchor [("href", "/b"); ("target", "_blank")] "https://x.test/b"
                    [Dom.Text "b"] ] ] ] ].

(** A page whose body received a [div] holding a marked anchor. *)
Definition inserted_div_page : Dom.Node :=
  html "html" []
    [ html "head" [] [];
      html "body" []
        [ html "div" []
            [ anchor [("href", "/b"); ("target", "_new")] "https://x.test/b" [Dom.Text "b"] ] ] ].

(** The response of the specification's scenario, as an upstream proxy
    hands it to the worker. *)
Definition html_response : ServiceWorker.Response :=
  {| ServiceWorker.status := 200;
     ServiceWorker.statusText := "OK";
     ServiceWorker.headers := [("content-type", "text/html"); ("content-length", "41")];
     ServiceWorker.body := "<html><head></head><body>hi</body></html>" |}.

(** A worker whose Ultraviolet proxy answers every request with that
    response. *)
Definition uv_worker : ServiceWorker.Env :=
  {| ServiceWorker.origin := "https://radius.test";
     ServiceWorker.uv_prefix := "/vu/service/";
     ServiceWorker.sj_loadConfig := ServiceWorker.Fulfilled tt;
     ServiceWorker.uv_fetch := fun _ => ServiceWorker.Fulfilled html_response;
     ServiceWorker.sj_route := fun _ => ServiceWorker.Fulfilled false;
     ServiceWorker.sj_fetch := fun _ => ServiceWorker.Rejected "not routed";
     ServiceWorker.net_fetch := fun _ _ => ServiceWorker.Rejected "offline" |}.

Definition proxied_request : ServiceWorker.Request :=
  {| ServiceWorker.url := "https://radius.test/vu/service/hvtrs8%2F-x%2Ctgsv%2F" |}.

End Scenario.

(** ** The page-level patches of the CAPTCHA handler (captcha-handler.ts) *)

Module CaptchaPage.
Import Js.

(** *** enhanceCookieHandling *)

(** The value the patched [document.cookie] setter hands to the original
    setter. *)
Definition cookie_setter_value (value : JsValue) : JsValue :=
  match value with
  | VString s =>
      if Str.includes s "_GRECAPTCHA" then
        if negb (Str.includes s "SameSite")
        then VString (s ++ "; SameSite=None; Secure")%string
        else VString s
      else VString s
  | _ => value
  end.

(** *** The frame observer of initializeCaptchaHandlers *)

(** An [iframe] element as the observer reads and writes it: its [src]
    property, the tokens of its [sandbox] list and whether it carries the
    [credentialless] attribute. *)
Record IframeElement := {
  src : string;
  sandbox : list string;
  credentialless : bool
}.

(** An added node: an [HTMLIFrameElement] or anything else. *)
Inductive AddedNode :=
| AddedIframe (f : IframeElement)
| AddedOther.

(** The test on [src] that makes a frame a CAPTCHA frame. *)
Definition is_captcha_frame (src : string) : bool :=
  Str.includes src "recaptcha" ||
  Str.includes src "hcaptcha" ||
  Str.includes src "challenges.cloudflare.com" ||
  Str.includes src "turnstile".

(** [tokens.add(t)]: a token list is an ordered set. *)
Definition token_add (t : string) (tokens : list string) : list string :=
  if existsb (String.eqb t) tokens then tokens else tokens ++ [t].

(** The body of [mutation.addedNodes.forEach] of the frame observer. *)
Definition prepare_added_node (node : AddedNode) : AddedNode :=
  match node with
  | AddedIframe f =>
      if is_captcha_frame (src f) then
        AddedIframe
          {| src := src f;
             sandbox :=
               if Nat.ltb 0 (length (sandbox f)) then
                 token_add "allow-forms"
                   (token_add "allow-scripts"
                      (token_add "allow-same-origin" (sandbox f)))
               else sandbox f;
             credentialless := false |}
      else node
  | AddedOther => node
  end.

(** *** enhanceNetworkRequests: the patched fetch *)

(** The first argument of [fetch]. *)
Inductive FetchInput :=
| InputString (s : string)
| InputRequest (url : string)
| InputURL (href : string).

(** [typeof input === "string" ? input
     : input instanceof Request ? input.url : input.toString()] *)
Definition input_url (input : FetchInput) : string :=
  match input with
  | InputString s => s
  | InputRequest u => u
  | InputURL h => h
  end.

(** A [RequestInit]: the three members the patch reads and writes, and the
    other members ([method], [body], [cache], ...) by name. [headers] is the
    header list that [new Headers(init.headers)] builds from the member; the
    constructor is taken to accept it. *)
Record RequestInit := {
  credentials : option string;
  headers : list (string * string);
  mode : option string;
  others : list (string * string)
}.

(** [{}] *)
Definition empty_init : RequestInit :=
  {| credentials := None; headers := []; mode := None; others := [] |}.

(** [!x] for an optional string member. *)
Definition falsy (x : option string) : bool :=
  match x with
  | None => true
  | Some s => String.eqb s ""
  end.

(** [headers.has(name)]: header names are compared without case. *)
Definition headers_has (name : string) (hs : list (string * string)) : bool :=
  existsb (fun kv => String.eqb (Str.toLowerCase (fst kv)) (Str.toLowerCase name)) hs.

(** [headers.set(name, value)] *)
Definition headers_set (name value : string) (hs : list (string * string))
  : list (string * string) :=
  filter (fun kv => negb (String.eqb (Str.toLowerCase (fst kv)) (Str.toLowerCase name))) hs
  ++ [(name, value)].

(** What the branch [if (isCaptchaRequest)] makes of [init]. *)
Definition prepare_init (init : option RequestInit) : RequestInit :=
  let init := match init with Some i => i | None => empty_init end in
  let credentials :=
    if falsy (credentials init) then Some "include" else credentials init in
  let headers :=
    if negb (headers_has "Accept" (headers init))
    then headers_set "Accept" "*/*" (headers init)
    else headers init in
  let mode :=
    if falsy (mode init) || (match mode init with
                             | Some m => String.eqb m "navigate"
                             | None => false
                             end)
    then Some "cors" else mode init in
  {| credentials := credentials; headers := headers; mode := mode;
     others := others init |}.

(** [{ credentials: "include" }] *)
Definition retry_init : RequestInit :=
  {| credentials := Some "include"; headers := []; mode := None; others := [] |}.

(** A call of the original [fetch]. *)
Definition FetchCall : Type := FetchInput * option RequestInit.

(** The patched [fetch]: how its promise settles and the calls of the
    original it made, in order. [originalFetch n] answers the [n]-th call
    made for one request. *)
Definition patched_fetch
    (originalFetch : nat -> FetchInput -> option RequestInit
                     -> ServiceWorker.Settled ServiceWorker.Response)
    (input : FetchInput) (init : option RequestInit)
  : ServiceWorker.Settled ServiceWorker.Response * list FetchCall :=
  let url := input_url input in
  let isCaptchaRequest := CaptchaHandler.isCaptchaRequest url in
  let init := if isCaptchaRequest then Some (prepare_init init) else init in
  match originalFetch 0 input init with
  | ServiceWorker.Fulfilled r => (ServiceWorker.Fulfilled r, [(input, init)])
  | ServiceWorker.Rejected error =>
      if isCaptchaRequest then
        match init with
        | Some i =>
            if negb (falsy (credentials i)) || negb (falsy (mode i)) then
              (originalFetch 1 input (Some retry_init),
               [(input, init); (input, Some retry_init)])
            else (ServiceWorker.Rejected error, [(input, init)])
        | None => (ServiceWorker.Rejected error, [(input, init)])
        end
      else (ServiceWorker.Rejected error, [(input, init)])
  end.

(** *** enhancePreloadHandling *)

(** An added node as the preload observer reads and writes it: a [link]
    with its [rel] and [href], a [script] with its [src], each with its
    [crossorigin] attribute, or anything else. *)
Inductive PreloadNode :=
| LinkElement (rel href : string) (crossorigin : option string)
| ScriptElement (src : string) (crossorigin : option string)
| OtherElement.

(** [CAPTCHA_DOMAINS.some((domain) => href.includes(domain))] *)
Definition is_captcha_resource (address : string) : bool :=
  Str.some (fun domain => Str.includes address domain) CaptchaHandler.CAPTCHA_DOMAINS.

(** [if (!node.hasAttribute("crossorigin"))
       node.setAttribute("crossorigin", "use-credentials")] *)
Definition ensure_crossorigin (crossorigin : option string) : option string :=
  match crossorigin with
  | Some v => Some v
  | None => Some "use-credentials"
  end.

(** The body of [mutation.addedNodes.forEach] of the preload observer. *)
Definition prepare_preload (node : PreloadNode) : PreloadNode :=
  match node with
  | LinkElement rel href crossorigin =>
      if String.eqb rel "preload" && is_captcha_resource href
      then LinkElement rel href (ensure_crossorigin crossorigin)
      else node
  | ScriptElement src crossorigin =>
      if is_captcha_resource src
      then ScriptElement src (ensure_crossorigin crossorigin)
      else node
  | OtherElement => node
  end.

Definition crossorigin_of (node : PreloadNode) : option string :=
  match node with
  | LinkElement _ _ c => c
  | ScriptElement _ c => c
  | OtherElement => None
  end.

(** *** Ports inside a message *)

(** [p] is a message port the message holds: a chain of own properties
    leads from the message to it. *)
Definition holds_port (m : Message) (p : Transfer.Item) : Prop :=
  exists path, value_at m path = Some (MHandle p) /\ CaptchaHandler.isMessagePort p = true.

(** The object graph of the message closes a cycle somewhere. *)
Definition cyclic (m : Message) : Prop :=
  exists path, value_at m path = Some MAncestor.


(** The transfer list the caller of the patched [postMessage] asked for:
    [options.transfer] when the options object names a target origin,
    [args[1]] otherwise. *)
Definition requested (arg0 : SecondArg) (arg1 : option (list Transfer.Item))
  : option (list Transfer.Item) :=
  match arg0 with
  | ArgOptions {| targetOrigin := Some _; transfer := t |} => t
  | _ => arg1
  end.

End CaptchaPage.

(** ** What a change of the document keeps *)

Module DomKeep.

(** The text at a path ([None] for an element or a dangling path). *)
Definition text_at (n : Dom.Node) (p : Dom.Path) : option string :=
  match Dom.lookup n p with
  | Some (Dom.Text d) => Some d
  | _ => None
  end.

(** [y] is [x] but for its [target] attribute, which is the same or gone. *)
Definition SameButTargetAttr (x y : Dom.Element) : Prop :=
  Dom.ns y = Dom.ns x /\
  Dom.localName y = Dom.localName x /\
  Dom.href y = Dom.href x /\
  Dom.realm y = Dom.realm x /\
  (forall name, name <> "target" -> Dom.getAttribute y name = Dom.getAttribute x name) /\
  (Dom.getAttribute y "target" = Dom.getAttribute x "target" \/
   Dom.getAttribute y "target" = None).

(** [root'] has the nodes of [root] at the same places, every text as it
    was and every element as it was but for its [target] attribute. *)
Definition OnlyTargetTouched (root root' : Dom.Node) : Prop :=
  forall p,
    text_at root' p = text_at root p /\
    match Dom.elem_at root p with
    | Some x => exists y, Dom.elem_at root' p = Some y /\ SameButTargetAttr x y
    | None => Dom.elem_at root' p = None
    end.

End DomKeep.

(** * Properties *)

Section StringFacts.

Lemma startsWith_spec s p :
  Str.startsWith s p = true <-> exists post, s = (p ++ post)%string.
Proof.
  revert s; induction p as [|a p IH]; intros s; simpl.
  - split; [intros _; now exists s | reflexivity].
  - destruct s as [|b s]; simpl.
    + split; [discriminate | intros [post H]; discriminate].
    + rewrite andb_true_iff, Ascii.eqb_eq, IH. split.
      * intros [-> [post ->]]. now exists post.
      * intros [post H]. injection H as -> ->. split; [reflexivity | now exists post].
Qed.

Lemma includes_spec s p :
  Str.includes s p = true <-> Str.Substring p s.
Proof.
  unfold Str.Substring. induction s as [|c s IH].
  - simpl. rewrite orb_false_r, startsWith_spec. split.
    + intros [post H]. now exists "", post.
    + intros [pre [post H]]. destruct pre; [now exists post | discriminate].
  - cbn [Str.includes]. rewrite orb_true_iff, startsWith_spec, IH. split.
    + intros [[post H] | [pre [post H]]].
      * now exists "", post.
      * exists (String c pre), post. simpl. now rewrite H.
    + intros [pre [post H]]. destruct pre as [|d pre]; simpl in H.
      * left. now exists post.
      * right. injection H as -> ->. now exists pre, post.
Qed.

End StringFacts.

(** ** The classifiers *)

Section Classifiers.

Lemma append_assoc (a b c : string) : ((a ++ b) ++ c = a ++ (b ++ c))%string.
Proof. induction a as [|x a IH]; simpl; [reflexivity | now rewrite IH]. Qed.

Lemma toLowerCase_append (a b : string) :
  Str.toLowerCase (a ++ b)%string = (Str.toLowerCase a ++ Str.toLowerCase b)%string.
Proof. induction a as [|x a IH]; simpl; [reflexivity | now rewrite IH]. Qed.

(** A split of the lower-cased string is the image of a split of the string. *)
Lemma toLowerCase_split (s a b : string) :
  Str.toLowerCase s = (a ++ b)%string ->
  exists x y, s = (x ++ y)%string /\ Str.toLowerCase x = a /\ Str.toLowerCase y = b.
Proof.
  revert s; induction a as [|c a IH]; intros s H.
  - exists "", s. now simpl in *.
  - destruct s as [|d s]; simpl in H; [discriminate|].
    injection H as Hc Hs. destruct (IH s Hs) as (x & y & -> & Hx & Hy).
    exists (String d x), y. simpl. now rewrite Hc, Hx, Hy.
Qed.

Lemma some_spec {A : Type} (f : A -> bool) (l : list A) :
  Str.some f l = true <-> exists x, In x l /\ f x = true.
Proof. apply existsb_exists. Qed.

(** Every entry of the interceptor's list is written in lower case. *)
Lemma interceptor_domains_lower :
  forall d, In d Interceptor_Domains.CAPTCHA_DOMAINS -> Str.toLowerCase d = d.
Proof.
  intros d H. simpl in H.
  repeat (destruct H as [<- | H]; [reflexivity|]). contradiction.
Qed.

(** [includes] after [toLowerCase], against a lower-case pattern, is the
    search for the pattern up to case. *)
Lemma includes_lower_spec (url d : string) :
  Str.toLowerCase d = d ->
  (Str.includes (Str.toLowerCase url) d = true <-> Str.SubstringCI d url).
Proof.
  intros Hd. rewrite includes_spec. unfold Str.Substring, Str.SubstringCI, Str.eq_ignore_case.
  split.
  - intros (pre & post & H).
    apply toLowerCase_split in H as (x & r & -> & Hx & Hr).
    apply toLowerCase_split in Hr as (y & z & -> & Hy & Hz).
    exists x, y, z. split; [reflexivity | congruence].
  - intros (pre & mid & post & -> & H).
    exists (Str.toLowerCase pre), (Str.toLowerCase post).
    rewrite !toLowerCase_append. congruence.
Qed.

Lemma isCaptchaUrl_spec (url : string) :
  Interceptor_Domains.isCaptchaUrl url = true <->
  exists d, In d Interceptor_Domains.CAPTCHA_DOMAINS /\ Str.SubstringCI d url.
Proof.
  unfold Interceptor_Domains.isCaptchaUrl. rewrite some_spec. split.
  - intros (d & Hin & H). exists d. split; [assumption|].
    now apply includes_lower_spec; [apply interceptor_domains_lower|].
  - intros (d & Hin & H). exists d. split; [assumption|].
    now apply includes_lower_spec; [apply interceptor_domains_lower|].
Qed.

Lemma isCaptchaRequest_spec (url : string) :
  CaptchaHandler.isCaptchaRequest url = true <->
  exists d, In d CaptchaHandler.CAPTCHA_DOMAINS /\ Str.Substring d url.
Proof.
  unfold CaptchaHandler.isCaptchaRequest. rewrite some_spec. split.
  - intros (d & Hin & H). exists d. split; [assumption | now apply includes_spec].
  - intros (d & Hin & H). exists d. split; [assumption | now apply includes_spec].
Qed.

Lemma isCaptchaUrl_empty : Interceptor_Domains.isCaptchaUrl "" = false.
Proof. reflexivity. Qed.

End Classifiers.

(** ** The message-send patch *)

Section MessageSend.
Import Js.

Variable pf : Platform.

Ltac run := unfold Interceptor.call_wrapper, Interceptor.wrapper, Interceptor.wrapper_retry,
  Interceptor.native_pm_call, bind, ret, throw, try_catch, emit, console, get_trace; simpl.

Lemma native_sends_app (a b : list Event) :
  Interceptor.native_sends (a ++ b) = Interceptor.native_sends a ++ Interceptor.native_sends b.
Proof. apply flat_map_app. Qed.

Lemma redirects_app (a b : list Event) :
  Interceptor.redirects (a ++ b) = Interceptor.redirects a ++ Interceptor.redirects b.
Proof. apply flat_map_app. Qed.

Lemma native_opens_app (a b : list Event) :
  Interceptor.native_opens (a ++ b) = Interceptor.native_opens a ++ Interceptor.native_opens b.
Proof. apply flat_map_app. Qed.

Lemma validTransferable_spec (rt : Transfer.Runtime) (i : Transfer.Item) :
  Transfer.validTransferable rt i = true <->
  Transfer.LegallyTransferable rt i /\ Transfer.realm i = Realm.Embedder.
Proof.
  unfold Transfer.validTransferable, Transfer.instanceof. split.
  - intros H. destruct i as [c r n]; destruct r; cbn in H;
      [|rewrite ?andb_false_r in H; discriminate].
    split; [|reflexivity].
    destruct c; cbn in *;
      rewrite ?andb_false_r, ?andb_true_r, ?orb_false_r in H; cbn in H;
      try discriminate;
      solve [ now apply Transfer.LT_buffer | now apply Transfer.LT_port
            | now apply Transfer.LT_bitmap | now apply Transfer.LT_canvas
            | now apply Transfer.LT_rstream | now apply Transfer.LT_wstream
            | now apply Transfer.LT_tstream ].
  - intros [H R]. rewrite R.
    destruct H as [i H|i H|i H1 H|i H1 H|i H1 H|i H1 H|i H1 H];
      rewrite H; cbn; rewrite ?H1; cbn; rewrite ?orb_true_r; reflexivity.
Qed.

(** Nothing made in another realm passes the filter. *)
Lemma validTransferable_foreign (rt : Transfer.Runtime) (i : Transfer.Item) :
  Transfer.realm i = Realm.Framed -> Transfer.validTransferable rt i = false.
Proof.
  intros R. unfold Transfer.validTransferable, Transfer.instanceof. rewrite R. cbn.
  now rewrite !andb_false_r.
Qed.

Lemma filter_subsequence {A : Type} (f : A -> bool) (l : list A) :
  Transfer.Subsequence (filter f l) l.
Proof.
  induction l as [|x l IH]; simpl; [constructor|].
  destruct (f x); now constructor.
Qed.

(** The first attempt forwards the message, the origin and the filtered
    transfer list. *)
Lemma attempt_call_message m a t : call_message (Interceptor.attempt_call pf m a t) = m.
Proof. destruct a; reflexivity. Qed.

Lemma attempt_call_transfer m a t :
  entries (call_transfer (Interceptor.attempt_call pf m a t)) =
  Transfer.filterValidTransferables (runtime pf) (entries (requested_transfer a t)).
Proof.
  destruct a as [s|o| |]; simpl; try (destruct t; reflexivity).
  destruct (transfer o); reflexivity.
Qed.



Lemma native_pm_call_eq c st :
  Interceptor.native_pm_call pf c st =
    (match native_postMessage pf (trace st) c with None => Ok tt | Some e => Throw e end,
     logged st [NativePostMessage c]).
Proof. run. destruct (native_postMessage pf (trace st) c); reflexivity. Qed.

(** The wrapper, step by step, over any original. *)
Lemma wrapper_eq (orig : PMCall -> M unit) m a t st :
  Interceptor.wrapper pf orig m a t st =
    match orig (Interceptor.attempt_call pf m a t) st with
    | (Ok u, st1) => (Ok u, st1)
    | (Throw e, st1) =>
        if isDataCloneError e then
          match orig (Interceptor.fallback_call m a)
                     (logged st1 [Console Warn "[Iframe Interceptor] postMessage failed with DataCloneError, retrying without transfer"]) with
          | (Ok u, st2) => (Ok u, st2)
          | (Throw e2, st2) =>
              (Throw e2, logged st2 [Console Error "[Iframe Interceptor] postMessage retry failed:"])
          end
        else (Throw e, st1)
    end.
Proof.
  unfold Interceptor.wrapper, Interceptor.wrapper_attempt, try_catch.
  destruct (orig _ st) as [[u|e] st1]; [reflexivity|].
  destruct (isDataCloneError e); [|reflexivity].
  unfold Interceptor.wrapper_retry, bind, console, emit, try_catch, throw, logged. simpl.
  destruct (orig _ _) as [[u|e2] st2]; reflexivity.
Qed.


End MessageSend.

Section MessageSendClaims.
Import Js.

Variable pf : Platform.

(** C10. For a send in either calling convention, the first call that
    reaches the original primitive carries the caller's message and the
    caller's transfer list filtered by [instanceof] against the embedding
    page's constructors: it keeps, in their order, exactly the legally
    transferable entries made in the embedding page's realm. Every entry
    made by the framed page is dropped, whatever its class: a list of one
    buffer and one plain object of the framed page is forwarded empty, where
    the same list with a buffer of the embedding page is forwarded as that
    buffer alone. *)
Theorem sanitizer_drops_transferables_of_the_framed_realm :
  forall (m : Message) (a : SecondArg) (t : option (list Transfer.Item)) (st : St),
    let requested := entries (requested_transfer a t) in
    let c := Interceptor.attempt_call pf m a t in
    (exists rest,
        trace (snd (Interceptor.call_wrapper pf NativePM m a t st))
        = trace st ++ NativePostMessage c :: rest) /\
    call_message c = m /\
    entries (call_transfer c) = filter (Transfer.validTransferable (runtime pf)) requested /\
    (forall i, In i (entries (call_transfer c)) <->
               In i requested /\ Transfer.LegallyTransferable (runtime pf) i /\
               Transfer.realm i = Realm.Embedder) /\
    ((forall i, In i requested -> Transfer.realm i = Realm.Framed) ->
     entries (call_transfer c) = []) /\
    (forall origin n k,
        let buf := {| Transfer.cls := Transfer.ArrayBuffer; Transfer.realm := Realm.Framed;
                      Transfer.ident := n |} in
        let obj := {| Transfer.cls := Transfer.PlainObject; Transfer.realm := Realm.Framed;
                      Transfer.ident := k |} in
        let own := {| Transfer.cls := Transfer.ArrayBuffer; Transfer.realm := Realm.Embedder;
                      Transfer.ident := n |} in
        Interceptor.attempt_call pf m (ArgString origin) (Some [buf; obj])
        = CallOrigin m origin (Some []) /\
        Interceptor.attempt_call pf m
          (ArgOptions {| targetOrigin := Some origin; transfer := Some [buf; obj] |}) None
        = CallOptions m {| targetOrigin := Some origin; transfer := Some [] |} /\
        Interceptor.attempt_call pf m (ArgString origin) (Some [own; obj])
        = CallOrigin m origin (Some [own])).
Proof.
  intros m a t st requested c.
  assert (Ht : entries (call_transfer c)
               = filter (Transfer.validTransferable (runtime pf)) requested)
    by apply attempt_call_transfer.
  split; [|split; [apply attempt_call_message | split; [exact Ht | split; [|split]]]].
  - unfold Interceptor.call_wrapper. rewrite wrapper_eq. simpl Interceptor.invoke_pm.
    rewrite native_pm_call_eq. fold c.
    destruct (native_postMessage pf (trace st) c) as [e|].
    + destruct (isDataCloneError e).
      * rewrite native_pm_call_eq.
        destruct (native_postMessage pf _ _); simpl; rewrite <- !app_assoc; simpl;
          eexists; reflexivity.
      * simpl. now exists [].
    + simpl. now exists [].
  - intros i. rewrite Ht, filter_In, validTransferable_spec. reflexivity.
  - intros Hf. rewrite Ht. clear Ht. induction requested as [|i l IH]; [reflexivity|].
    cbn [filter]. rewrite (validTransferable_foreign _ i) by (apply Hf; now left).
    apply IH. intros j Hj. apply Hf. now right.
  - intros origin n k.
    unfold Interceptor.attempt_call, Interceptor.filter_transfer,
      Transfer.filterValidTransferables, Transfer.validTransferable, Transfer.instanceof.
    cbn. rewrite !andb_false_r. cbn. repeat split; reflexivity.
Qed.


End MessageSendClaims.


(** ** The classifiers, as claimed *)

(** C8, as the code has it. [isCaptchaUrl] is a total function of the URL
    that answers [true] exactly when the URL contains an entry of the
    interceptor's allowlist up to case, and the open override takes its
    decision from it. The request patch of the CAPTCHA handler is gated by a
    different test: an exact (case-sensitive) substring search against the
    handler's own allowlist. *)
Theorem classifier_is_case_insensitive_and_request_gate_is_exact :
  (forall url,
      Interceptor_Domains.isCaptchaUrl url = true <->
      exists d, In d Interceptor_Domains.CAPTCHA_DOMAINS /\ Str.SubstringCI d url) /\
  (forall original cb args u st,
      Js.url args = Some u ->
      Interceptor.url_falsy (Some u) = false ->
      Interceptor.open_override original cb args st =
      if Interceptor_Domains.isCaptchaUrl (Interceptor.url_toString u)
      then
        match original with
        | Some f =>
            f args (Js.logged st [Js.Console Js.Log
                      ("[Iframe Interceptor] Allowing CAPTCHA window.open: "
                         ++ Interceptor.url_toString u)%string])
        | None =>
            (Js.Ok None,
             Js.logged st [Js.Console Js.Log
                      ("[Iframe Interceptor] Allowing CAPTCHA window.open: "
                         ++ Interceptor.url_toString u)%string])
        end
      else
        (Js.Ok (Some (Js.ProxyWindow Interceptor.inert_handler)),
         Js.logged st (Js.Console Js.Log
                         ("[Iframe Interceptor] Intercepted window.open: "
                            ++ Interceptor.url_toString u)%string
                       :: cb (Interceptor.url_toString u)))) /\
  (forall url,
      CaptchaHandler.isCaptchaRequest url = true <->
      exists d, In d CaptchaHandler.CAPTCHA_DOMAINS /\ Str.Substring d url).
Proof.
  split; [exact isCaptchaUrl_spec | split; [| exact isCaptchaRequest_spec]].
  intros original cb args u st Hu Hf.
  unfold Interceptor.open_override. rewrite Hu, Hf.
  destruct (Interceptor_Domains.isCaptchaUrl (Interceptor.url_toString u)).
  - unfold Js.bind, Js.console, Js.emit, Js.ret, Js.logged. simpl.
    destruct original; reflexivity.
  - unfold Js.bind, Js.console, Js.emit, Js.ret, Js.logged. simpl.
    now rewrite <- app_assoc.
Qed.

(** C8 as stated fails: the two gates are not one classification. A URL
    that contains an entry of either allowlist up to case, and that the open
    override treats as trusted, is not a CAPTCHA request for the request
    patch; and a URL the request patch accepts is not trusted by the open
    override. *)
Lemma request_gate_differs_from_classifier :
  let u := "https://HCAPTCHA.COM/1/api.js" in
  let v := "https://www.google.com/" in
  Interceptor_Domains.isCaptchaUrl u = true /\
  (exists d, In d CaptchaHandler.CAPTCHA_DOMAINS /\ Str.SubstringCI d u) /\
  CaptchaHandler.isCaptchaRequest u = false /\
  CaptchaHandler.isCaptchaRequest v = true /\
  Interceptor_Domains.isCaptchaUrl v = false.
Proof.
  repeat split.
  exists "hcaptcha.com". split; [simpl; tauto|].
  exists "https://", "HCAPTCHA.COM", "/1/api.js". split; reflexivity.
Qed.

(** ** The open override *)

Section OpenOverride.
Import Js.

Variable pf : Platform.

Lemma native_open_call_eq args st :
  Interceptor.native_open_call pf args st =
  (Ok (native_open pf (trace st) args), logged st [NativeOpen args]).
Proof. reflexivity. Qed.

(** A string that [!url] rejects is not trusted either. *)
Lemma falsy_url_not_trusted u :
  Interceptor.url_falsy (Some u) = true ->
  Interceptor_Domains.isCaptchaUrl (Interceptor.url_toString u) = false.
Proof.
  destruct u as [s|h]; simpl; [|discriminate].
  intros H. apply String.eqb_eq in H. subst s. reflexivity.
Qed.

Lemma trusted_url_truthy u :
  Interceptor_Domains.isCaptchaUrl (Interceptor.url_toString u) = true ->
  Interceptor.url_falsy (Some u) = false.
Proof.
  intros H. destruct (Interceptor.url_falsy (Some u)) eqn:E; [|reflexivity].
  apply falsy_url_not_trusted in E. congruence.
Qed.

(** The override with a trusted URL is its original, after one line of log. *)
Lemma override_trusted originalOpen cb args u st :
  url args = Some u ->
  Interceptor_Domains.isCaptchaUrl (Interceptor.url_toString u) = true ->
  Interceptor.call_open pf (OpenOverride originalOpen cb) args st =
  let st1 := logged st [Console Log ("[Iframe Interceptor] Allowing CAPTCHA window.open: "
                                       ++ Interceptor.url_toString u)%string] in
  match originalOpen with
  | Some original => Interceptor.call_open pf original args st1
  | None => (Ok None, st1)
  end.
Proof.
  intros Hu Ht. simpl. unfold Interceptor.open_override.
  rewrite Hu, (trusted_url_truthy _ Ht), Ht.
  unfold bind, console, emit, ret, logged. simpl. destruct originalOpen; reflexivity.
Qed.

(** The override with a URL that is given and not trusted. *)
Lemma override_untrusted originalOpen cb args u st :
  url args = Some u ->
  Interceptor.url_falsy (Some u) = false ->
  Interceptor_Domains.isCaptchaUrl (Interceptor.url_toString u) = false ->
  Interceptor.call_open pf (OpenOverride originalOpen cb) args st =
  (Ok (Some (ProxyWindow Interceptor.inert_handler)),
   logged st (Console Log ("[Iframe Interceptor] Intercepted window.open: "
                             ++ Interceptor.url_toString u)%string
              :: cb (Interceptor.url_toString u))).
Proof.
  intros Hu Hf Ht. simpl. unfold Interceptor.open_override. rewrite Hu, Hf, Ht.
  unfold bind, console, emit, ret, logged. simpl. now rewrite <- app_assoc.
Qed.

(** C6. A call of the override with a trusted URL is the call of the
    original primitive with the same arguments; when the original is the
    platform's, the platform sees exactly that one call, the caller gets the
    platform's answer, and the address of the frame is not written. *)
Theorem trusted_open_is_forwarded_unmodified :
  forall (original : OpenFn) (cb : string -> list Event) (args : OpenArgs) (u : UrlArg) (st : St),
    url args = Some u ->
    Interceptor_Domains.isCaptchaUrl (Interceptor.url_toString u) = true ->
    let st1 := logged st [Console Log ("[Iframe Interceptor] Allowing CAPTCHA window.open: "
                                         ++ Interceptor.url_toString u)%string] in
    let out := Interceptor.call_open pf (OpenOverride (Some NativeOpenFn) cb) args st in
    Interceptor.call_open pf (OpenOverride (Some original) cb) args st
    = Interceptor.call_open pf original args st1 /\
    fst out = Ok (native_open pf (trace st1) args) /\
    Interceptor.native_opens (trace (snd out)) = Interceptor.native_opens (trace st) ++ [args] /\
    Interceptor.redirects (trace (snd out)) = Interceptor.redirects (trace st) /\
    frame (snd out) = frame st.
Proof.
  intros original cb args u st Hu Ht st1 out.
  split; [apply (override_trusted (Some original) cb args u st Hu Ht)|].
  subst out. rewrite (override_trusted (Some NativeOpenFn) cb args u st Hu Ht).
  cbn [Interceptor.call_open]. rewrite native_open_call_eq. simpl.
  rewrite !native_opens_app, !redirects_app. simpl. rewrite !app_nil_r.
  repeat split; reflexivity.
Qed.

(** C5. A call of the override with a URL that is given and not trusted
    writes the encoded URL to the address of the frame exactly once, calls
    no original, and returns a proxy every property read of which yields
    [null] and every property write of which succeeds. (A call with the
    empty string is a call without URL: it is what the platform passes for
    a missing argument, and [if (!url)] answers it with [null].) *)
Theorem untrusted_open_redirects_once :
  forall (originalOpen : option OpenFn) (args : OpenArgs) (u : UrlArg) (st : St),
    url args = Some u ->
    Interceptor.url_falsy (Some u) = false ->
    Interceptor_Domains.isCaptchaUrl (Interceptor.url_toString u) = false ->
    let out := Interceptor.call_open pf
                 (OpenOverride originalOpen (Interceptor.navigate_frame pf)) args st in
    exists w,
      fst out = Ok (Some w) /\
      Interceptor.redirects (trace (snd out))
      = Interceptor.redirects (trace st) ++ [encodeURL pf (Interceptor.url_toString u)] /\
      Interceptor.native_opens (trace (snd out)) = Interceptor.native_opens (trace st) /\
      frame (snd out) = frame st /\
      (forall p, Interceptor.read_property w p = Some VNull) /\
      (forall p v, Interceptor.write_property w p v = Ok tt).
Proof.
  intros originalOpen args u st Hu Hf Ht out. subst out.
  rewrite (override_untrusted _ _ _ _ _ Hu Hf Ht).
  exists (ProxyWindow Interceptor.inert_handler). simpl.
  rewrite !native_opens_app, !redirects_app. simpl. rewrite !app_nil_r.
  repeat split; reflexivity.
Qed.

End OpenOverride.

(** A reCAPTCHA popup opened through the override on a quiet platform. *)
Lemma trusted_open_is_forwarded_unmodified_witness :
  let args := {| Js.url := Some (Js.UrlString "https://www.google.com/recaptcha/api2/anchor");
                 Js.target := Some "_blank"; Js.features := None |} in
  let st := Scenario.page_of (Scenario.window_of false
              (Scenario.document_of Js.Complete Scenario.linked_page)) in
  let out := Interceptor.call_open Scenario.quiet
               (Js.OpenOverride (Some Js.NativeOpenFn) (Interceptor.navigate_frame Scenario.quiet))
               args st in
  Interceptor_Domains.isCaptchaUrl "https://www.google.com/recaptcha/api2/anchor" = true /\
  fst out = Js.Ok (Some (Js.RealWindow 1)) /\
  Interceptor.native_opens (Js.trace (snd out)) = [args] /\
  Interceptor.redirects (Js.trace (snd out)) = [].
Proof.
  intros args st out. split; [reflexivity|].
  destruct (trusted_open_is_forwarded_unmodified Scenario.quiet Js.NativeOpenFn
              (Interceptor.navigate_frame Scenario.quiet) args
              (Js.UrlString "https://www.google.com/recaptcha/api2/anchor") st
              eq_refl eq_refl) as (_ & H1 & H2 & H3 & _).
  repeat split; assumption.
Defined.

(** [window.open("https://x.test/p", "_blank")] through the override. *)
Lemma untrusted_open_redirects_once_witness :
  let args := {| Js.url := Some (Js.UrlString "https://x.test/p");
                 Js.target := Some "_blank"; Js.features := None |} in
  let st := Scenario.page_of (Scenario.window_of false
              (Scenario.document_of Js.Complete Scenario.linked_page)) in
  let out := Interceptor.call_open Scenario.quiet
               (Js.OpenOverride (Some Js.NativeOpenFn) (Interceptor.navigate_frame Scenario.quiet))
               args st in
  Interceptor_Domains.isCaptchaUrl "https://x.test/p" = false /\
  exists w,
    fst out = Js.Ok (Some w) /\
    Interceptor.redirects (Js.trace (snd out)) = [Scenario.encode "https://x.test/p"] /\
    Interceptor.native_opens (Js.trace (snd out)) = [] /\
    Js.frame (snd out) = Js.frame st /\
    (forall p, Interceptor.read_property w p = Some Js.VNull) /\
    (forall p v, Interceptor.write_property w p v = Js.Ok tt).
Proof.
  intros args st out. split; [reflexivity|].
  exact (untrusted_open_redirects_once Scenario.quiet (Some Js.NativeOpenFn) args
           (Js.UrlString "https://x.test/p") st eq_refl eq_refl eq_refl).
Defined.

(** The call without URL: nothing is redirected and [null] is returned. *)
Lemma empty_url_is_not_redirected :
  let args := {| Js.url := Some (Js.UrlString ""); Js.target := None; Js.features := None |} in
  let st := Scenario.page_of (Scenario.window_of false
              (Scenario.document_of Js.Complete Scenario.linked_page)) in
  let out := Interceptor.call_open Scenario.quiet
               (Js.OpenOverride (Some Js.NativeOpenFn) (Interceptor.navigate_frame Scenario.quiet))
               args st in
  Interceptor_Domains.isCaptchaUrl "" = false /\
  fst out = Js.Ok None /\
  Interceptor.redirects (Js.trace (snd out)) = [].
Proof. repeat split. Qed.

(** ** Installation *)

Ltac run_install :=
  unfold Interceptor.injectIframeInterceptor, Interceptor.fixPostMessage,
    Interceptor.interceptTargetBlank, Interceptor.read_open, Interceptor.write_open,
    Interceptor.write_postMessage, Interceptor.read_document, Interceptor.addEventListener,
    Interceptor.observe, Interceptor.put_document, Interceptor.put_window,
    Interceptor.the_window, Interceptor.same_origin_only,
    Js.bind, Js.ret, Js.throw, Js.try_catch, Js.console, Js.emit, Js.get_frame,
    Js.put_frame, Js.get_trace;
  simpl.

Section Installation.
Import Js.

Variable pf : Platform.

(** Installation on an accessible realm: both primitives are wrapped,
    nothing reaches the caller. *)
Lemma inject_same_origin cb st pm o d :
  contentWindow (frame st) = Some {| cross_origin := false; postMessage := pm;
                                     open := o; document := d |} ->
  exists d' evs,
    Interceptor.injectIframeInterceptor cb st =
    (Ok tt,
     {| frame := {| contentWindow :=
                      Some {| cross_origin := false;
                              postMessage := option_map PMWrapper pm;
                              open := Some (OpenOverride o cb);
                              document := d' |};
                    loadListeners := loadListeners (frame st) |};
        trace := trace st ++ evs |}) /\
    documentElement d' = documentElement d /\
    Interceptor.redirects evs = [] /\
    Interceptor.native_opens evs = [] /\
    Interceptor.native_sends evs = [].
Proof.
  destruct st as [[cw ll] tr]. simpl. intros ->.
  run_install.
  destruct pm as [p|]; simpl;
    destruct (readyState d); simpl;
    try destruct (Interceptor.observeTarget d); simpl;
    eexists; eexists; (split; [rewrite <- ?app_assoc; reflexivity|]);
    simpl; repeat split; reflexivity.
Qed.

(** Installation on a realm of another origin: the violation is caught,
    the realm stays as it was, the caller sees a normal return. *)
Lemma inject_cross_origin cb st pm o d :
  contentWindow (frame st) = Some {| cross_origin := true; postMessage := pm;
                                     open := o; document := d |} ->
  exists evs,
    Interceptor.injectIframeInterceptor cb st = (Ok tt, logged st evs) /\
    Forall (fun ev => exists msg, ev = Console Warn msg) evs.
Proof.
  destruct st as [[cw ll] tr]. simpl. intros ->.
  run_install. unfold logged. simpl.
  destruct pm as [p|]; simpl; eexists; (split; [rewrite <- ?app_assoc; reflexivity|]);
    repeat constructor; eexists; reflexivity.
Qed.

Lemma inject_never_throws cb st :
  exists st', Interceptor.injectIframeInterceptor cb st = (Ok tt, st').
Proof.
  destruct (contentWindow (frame st)) as [[[] pm o d]|] eqn:E.
  - destruct (inject_cross_origin cb st pm o d E) as (evs & H & _). eauto.
  - destruct (inject_same_origin cb st pm o d E) as (d' & evs & H & _). eauto.
  - unfold Interceptor.injectIframeInterceptor, bind, get_frame. rewrite E.
    eexists; reflexivity.
Qed.

End Installation.

Section RepeatedInstallation.
Import Js.

Variable pf : Platform.











End RepeatedInstallation.



(** ** Frame attachment *)

Lemma handleIframeLoad_never_throws pf st :
  exists st', Interceptor.handleIframeLoad pf st = (Js.Ok tt, st').
Proof.
  unfold Interceptor.handleIframeLoad, Js.bind, Js.get_frame.
  destruct (Js.contentWindow (Js.frame st)) eqn:E.
  - apply inject_never_throws.
  - eexists. reflexivity.
Qed.

(** A [load] event never raises, whatever the origin of the realm. *)
Lemma fire_load_never_throws pf st :
  exists st', Interceptor.fire_load pf st = (Js.Ok tt, st').
Proof.
  unfold Interceptor.fire_load, Js.bind, Js.get_frame.
  generalize (Js.loadListeners (Js.frame st)) as ls. intros ls.
  generalize st as s. induction ls as [|[] ls IH]; intros s; simpl.
  - eexists. reflexivity.
  - unfold Js.bind. destruct (handleIframeLoad_never_throws pf s) as (s1 & ->).
    apply IH.
Qed.

(** C3. On a frame whose realm belongs to another origin, installation
    itself catches the violation and returns normally with the realm as it
    was, and so does every later [load] event; but
    [setupIframeInterceptor] reads [iframe.contentWindow.document.readyState]
    before it calls the installation, outside any [try], and that read
    raises [SecurityError] to the caller of [setupIframeInterceptor]. *)
Theorem bind_time_ready_check_raises_on_cross_origin_frame :
  forall (pf : Js.Platform) (pm : option Js.PMFn) (o : option Js.OpenFn) (d : Js.Document)
         (ll : list Js.LoadListener) (tr : list Js.Event),
    let w := {| Js.cross_origin := true; Js.postMessage := pm;
                Js.open := o; Js.document := d |} in
    let st := {| Js.frame := {| Js.contentWindow := Some w; Js.loadListeners := ll |};
                 Js.trace := tr |} in
    let bound := {| Js.frame := {| Js.contentWindow := Some w;
                                   Js.loadListeners := ll ++ [Js.HandleIframeLoad] |};
                    Js.trace := tr |} in
    (exists evs,
        Interceptor.injectIframeInterceptor (Interceptor.navigate_frame pf) st
        = (Js.Ok tt, Js.logged st evs)) /\
    (exists st', Interceptor.fire_load pf bound = (Js.Ok tt, st')) /\
    Interceptor.setupIframeInterceptor pf st = (Js.Throw Js.SecurityError, bound).
Proof.
  intros pf pm o d ll tr w st bound. split; [|split].
  - destruct (inject_cross_origin (Interceptor.navigate_frame pf) st pm o d eq_refl)
      as (evs & H & _).
    now exists evs.
  - apply fire_load_never_throws.
  - reflexivity.
Qed.

(** ** Link interception *)

Section LinkInterception.
Import Js.

Variable pf : Platform.

(** Installation on an accessible realm whose document is past loading:
    one capturing click listener and, when there is something to observe,
    one observer are added. *)
Lemma inject_ready_document cb st pm o d :
  contentWindow (frame st) = Some {| cross_origin := false; postMessage := pm;
                                     open := o; document := d |} ->
  readyState d <> Loading ->
  exists evs,
    Interceptor.injectIframeInterceptor cb st =
    (Ok tt,
     {| frame :=
          {| contentWindow :=
               Some {| cross_origin := false;
                       postMessage := option_map PMWrapper pm;
                       open := Some (OpenOverride o cb);
                       document :=
                         {| readyState := readyState d;
                            listeners := listeners d ++
                              [{| ltype := "click"; handler := ClickInterceptor cb;
                                  capture := true |}];
                            observers := observers d ++
                              match Interceptor.observeTarget d with
                              | Some t => [{| observed := t; childList := true; subtree := true |}]
                              | None => []
                              end;
                            documentElement := documentElement d |} |};
             loadListeners := loadListeners (frame st) |};
        trace := trace st ++ evs |}) /\
    Interceptor.redirects evs = [].
Proof.
  destruct st as [[cw ll] tr]. simpl. intros -> Hr.
  run_install.
  destruct pm as [p|]; simpl;
    (destruct (readyState d) eqn:R; [congruence| |]); simpl;
    destruct (Interceptor.observeTarget d); simpl; rewrite ?app_nil_r;
    eexists; (split; [rewrite <- ?app_assoc, ?R; reflexivity|]); reflexivity.
Qed.

Lemma closest_anchor_rev_eq root rp :
  Dom.closest_anchor_rev root rp =
  let up := match rp with
            | [] => None
            | _ :: rp' => Dom.closest_anchor_rev root rp'
            end in
  match Dom.elem_at root (rev rp) with
  | Some e => if String.eqb (Dom.tagName e) "A" then Some (rev rp) else up
  | None => up
  end.
Proof. destruct rp; reflexivity. Qed.

(** The walk from the target up stops at an element named ["A"] when no
    element between the target and it is named ["A"]. *)
Lemma closest_anchor_found root a q anchor :
  Dom.elem_at root a = Some anchor ->
  Dom.tagName anchor = "A" ->
  (forall q1 q2 e, q = q1 ++ q2 -> q1 <> [] ->
                   Dom.elem_at root (a ++ q1) = Some e -> Dom.tagName e <> "A") ->
  Dom.closest_anchor root (a ++ q) = Some a.
Proof.
  intros Ha Ht. unfold Dom.closest_anchor.
  induction q as [|i q IH] using rev_ind; intros Hq.
  - rewrite app_nil_r, closest_anchor_rev_eq, rev_involutive, Ha, Ht. reflexivity.
  - rewrite app_assoc, rev_unit, closest_anchor_rev_eq. cbv zeta.
    replace (rev (i :: rev (a ++ q))) with (a ++ q ++ [i])
      by (simpl; now rewrite rev_involutive, app_assoc).
    assert (IH' : Dom.closest_anchor_rev root (rev (a ++ q)) = Some a).
    { apply IH. intros q1 q2 e E N. apply (Hq q1 (q2 ++ [i])); [|assumption].
      now rewrite E, app_assoc. }
    destruct (Dom.elem_at root (a ++ q ++ [i])) as [e|] eqn:E; [|exact IH'].
    assert (N : Dom.tagName e <> "A").
    { apply (Hq (q ++ [i]) [] e); [now rewrite app_nil_r | | exact E].
      destruct q; discriminate. }
    apply String.eqb_neq in N. now rewrite N.
Qed.


(** The capturing click listener, delivered an event. *)
Lemma deliver_click_eq cb ev st w root :
  contentWindow (frame st) = Some w ->
  documentElement (document w) = Some root ->
  Interceptor.deliver_click
    {| ltype := "click"; handler := ClickInterceptor cb; capture := true |} ev st
  = (Ok (fst (Interceptor.click_listener cb root ev)),
     logged st (snd (Interceptor.click_listener cb root ev))).
Proof.
  intros Hw Hd.
  unfold Interceptor.deliver_click, Interceptor.the_window, bind, get_frame, ret, emit. simpl.
  rewrite Hw, Hd. destruct (Interceptor.click_listener cb root ev). reflexivity.
Qed.

Lemma click_listener_marked cb root a q anchor ev :
  etarget ev = a ++ q ->
  Dom.elem_at root a = Some anchor ->
  Dom.tagName anchor = "A" ->
  Dom.isNewContextMarker (Dom.getAttribute anchor "target") = true ->
  (forall q1 q2 e, q = q1 ++ q2 -> q1 <> [] ->
                   Dom.elem_at root (a ++ q1) = Some e -> Dom.tagName e <> "A") ->
  Interceptor.click_listener cb root ev =
  ({| etarget := etarget ev; defaultPrevented := true; propagationStopped := true |},
   if String.eqb (Dom.href anchor) "" then []
   else Console Log (Interceptor.intercepted_link_message (Dom.href anchor))
          :: cb (Dom.href anchor)).
Proof.
  intros Et Ha Ht Hm Hq. unfold Interceptor.click_listener.
  rewrite Et, (closest_anchor_found root a q anchor Ha Ht Hq), Ha, Hm.
  destruct (String.eqb (Dom.href anchor) ""); reflexivity.
Qed.

Lemma click_listener_target cb root ev :
  etarget (fst (Interceptor.click_listener cb root ev)) = etarget ev.
Proof.
  unfold Interceptor.click_listener.
  destruct (Dom.closest_anchor root (etarget ev)) as [a|]; [|reflexivity].
  destruct (Dom.elem_at root a) as [anchor|]; [|reflexivity].
  destruct (Dom.isNewContextMarker _); [|reflexivity].
  destruct (String.eqb (Dom.href anchor) ""); reflexivity.
Qed.

Lemma logged_nil st : logged st [] = st.
Proof. destruct st as [f tr]. unfold logged. cbn. now rewrite app_nil_r. Qed.

Lemma logged_logged st a b : logged (logged st a) b = logged st (a ++ b).
Proof. unfold logged. cbn. now rewrite app_assoc. Qed.

(** A listener of the document, whichever it is, never throws on a click;
    it keeps the target of the event, and what it does is decided by the
    tree. *)
Lemma deliver_click_pure l root ev :
  exists ev' evs,
    etarget ev' = etarget ev /\
    forall st w,
      contentWindow (frame st) = Some w ->
      documentElement (document w) = Some root ->
      Interceptor.deliver_click l ev st = (Ok ev', logged st evs).
Proof.
  destruct l as [ty [cb|cb] cap].
  - destruct (String.eqb ty "click" && cap) eqn:E.
    + exists (fst (Interceptor.click_listener cb root ev)),
             (snd (Interceptor.click_listener cb root ev)).
      split; [apply click_listener_target|]. intros st w Hw Hd.
      unfold Interceptor.deliver_click, Interceptor.the_window, bind, get_frame, ret, emit.
      cbn [handler ltype capture]. rewrite E, Hw, Hd.
      destruct (Interceptor.click_listener cb root ev). reflexivity.
    + exists ev, []. split; [reflexivity|]. intros st w _ _.
      unfold Interceptor.deliver_click. cbn [handler ltype capture]. rewrite E.
      now rewrite logged_nil.
  - exists ev, []. split; [reflexivity|]. intros st w _ _.
    unfold Interceptor.deliver_click. cbn [handler]. now rewrite logged_nil.
Qed.

Lemma deliver_clicks_pure ls root :
  forall ev, exists ev' evs,
    etarget ev' = etarget ev /\
    forall st w,
      contentWindow (frame st) = Some w ->
      documentElement (document w) = Some root ->
      Interceptor.deliver_clicks ls ev st = (Ok ev', logged st evs).
Proof.
  induction ls as [|l ls IH]; intros ev.
  - exists ev, []. split; [reflexivity|]. intros st w _ _. cbn. unfold ret.
    now rewrite logged_nil.
  - destruct (deliver_click_pure l root ev) as (ev1 & evs1 & T1 & D1).
    destruct (IH ev1) as (ev2 & evs2 & T2 & D2).
    exists ev2, (evs1 ++ evs2). split; [congruence|]. intros st w Hw Hd.
    cbn [Interceptor.deliver_clicks]. unfold bind. rewrite (D1 st w Hw Hd).
    rewrite (D2 (logged st evs1) w Hw Hd). now rewrite logged_logged.
Qed.

Lemma deliver_clicks_app ls1 ls2 :
  forall ev st,
    Interceptor.deliver_clicks (ls1 ++ ls2) ev st =
    match Interceptor.deliver_clicks ls1 ev st with
    | (Ok ev', st') => Interceptor.deliver_clicks ls2 ev' st'
    | (Throw e, st') => (Throw e, st')
    end.
Proof.
  induction ls1 as [|l ls1 IH]; intros ev st; [reflexivity|].
  cbn [app Interceptor.deliver_clicks]. unfold bind.
  destruct (Interceptor.deliver_click l ev st) as [[ev1|e] st1]; [apply IH | reflexivity].
Qed.

(** One more installation on a document past loading: one more listener,
    and for an activation of a marked anchor one more redirect, if the
    anchor has an address. *)
Lemma one_more_installation_one_more_redirect st pm o d root a q anchor :
  contentWindow (frame st) = Some {| cross_origin := false; postMessage := pm;
                                     open := o; document := d |} ->
  readyState d <> Loading ->
  documentElement d = Some root ->
  Dom.elem_at root a = Some anchor ->
  Dom.tagName anchor = "A" ->
  Dom.isNewContextMarker (Dom.getAttribute anchor "target") = true ->
  (forall q1 q2 e, q = q1 ++ q2 -> q1 <> [] ->
                   Dom.elem_at root (a ++ q1) = Some e -> Dom.tagName e <> "A") ->
  let st1 := snd (Interceptor.injectIframeInterceptor (Interceptor.navigate_frame pf) st) in
  fst (Interceptor.dispatch_click (a ++ q) st1)
  = Ok {| etarget := a ++ q; defaultPrevented := true; propagationStopped := true |} /\
  Interceptor.redirects (trace (snd (Interceptor.dispatch_click (a ++ q) st1)))
  = Interceptor.redirects (trace (snd (Interceptor.dispatch_click (a ++ q) st)))
    ++ (if String.eqb (Dom.href anchor) "" then [] else [encodeURL pf (Dom.href anchor)]).
Proof.
  intros Hw Hr Hd Ha Ht Hm Hq st1.
  destruct (inject_ready_document (Interceptor.navigate_frame pf) st pm o d Hw Hr)
    as (evs & E & R).
  set (ev0 := {| etarget := a ++ q; defaultPrevented := false; propagationStopped := false |}).
  destruct (deliver_clicks_pure (listeners d) root ev0) as (ev1 & evs1 & T1 & D1).
  assert (B : Interceptor.dispatch_click (a ++ q) st = (Ok ev1, logged st evs1)).
  { unfold Interceptor.dispatch_click, Interceptor.the_window, bind, get_frame, ret.
    rewrite Hw. cbn [document]. now apply (D1 st _ Hw). }
  subst st1. rewrite E, B. cbn [snd].
  unfold Interceptor.dispatch_click, Interceptor.the_window, bind, get_frame, ret.
  cbn [frame contentWindow document listeners].
  rewrite deliver_clicks_app.
  erewrite D1; [|reflexivity | exact Hd].
  cbn [Interceptor.deliver_clicks]. unfold bind.
  erewrite deliver_click_eq; [|reflexivity | exact Hd].
  rewrite (click_listener_marked (Interceptor.navigate_frame pf) root a q anchor ev1
             T1 Ha Ht Hm Hq).
  unfold ret, logged. cbn [fst snd trace frame]. rewrite T1.
  split; [reflexivity|].
  rewrite !redirects_app, R.
  destruct (String.eqb (Dom.href anchor) ""); cbn; now rewrite ?app_nil_r.
Qed.

(** Repeated installation on a document past loading keeps its tree and
    its state of readiness. *)
Lemma install_times_ready k cb st pm o d :
  contentWindow (frame st) = Some {| cross_origin := false; postMessage := pm;
                                     open := o; document := d |} ->
  readyState d <> Loading ->
  exists pm' o' d',
    contentWindow (frame (Interceptor.install_times k cb st))
    = Some {| cross_origin := false; postMessage := pm'; open := o'; document := d' |} /\
    readyState d' = readyState d /\
    documentElement d' = documentElement d.
Proof.
  intros Hw Hr. induction k as [|k (pm' & o' & d' & W & R & D)].
  - exists pm, o, d. now repeat split.
  - cbn [Interceptor.install_times].
    assert (Hr' : readyState d' <> Loading) by congruence.
    destruct (inject_ready_document cb _ pm' o' d' W Hr') as (evs & E & _).
    rewrite E. cbn [snd frame contentWindow].
    eexists _, _, _. split; [reflexivity|]. split; assumption.
Qed.

Lemma concat_repeat_comm {A : Type} (l : list A) k :
  concat (repeat l k) ++ l = l ++ concat (repeat l k).
Proof.
  induction k as [|k IH]; cbn; [now rewrite app_nil_r|].
  now rewrite <- app_assoc, IH.
Qed.

(** C4, as the code has it. Every installation on an accessible realm
    whose document is past loading adds one capture-phase click listener to
    the document. A pointer activation on an element named ["A"] that
    carries a new-context marker, or on a descendant of it with no other
    element named ["A"] in between, has its default action and its
    propagation suppressed, and the listener of each installation writes the
    encoded [href] to the address of the frame once, or not at all when the
    resolved [href] is empty. An installation therefore adds exactly one
    redirect to what the activation caused before it, and [k] installations
    on a document without listeners cause exactly [k]. *)
Theorem marked_link_activation_redirects_once_per_installation :
  forall (st : St) (pm : option PMFn) (o : option OpenFn) (d : Document)
         (root : Dom.Node) (a q : Dom.Path) (anchor : Dom.Element),
    contentWindow (frame st) = Some {| cross_origin := false; postMessage := pm;
                                       open := o; document := d |} ->
    readyState d <> Loading ->
    documentElement d = Some root ->
    Dom.elem_at root a = Some anchor ->
    Dom.tagName anchor = "A" ->
    Dom.isNewContextMarker (Dom.getAttribute anchor "target") = true ->
    (forall q1 q2 e, q = q1 ++ q2 -> q1 <> [] ->
                     Dom.elem_at root (a ++ q1) = Some e -> Dom.tagName e <> "A") ->
    let due := if String.eqb (Dom.href anchor) "" then []
               else [encodeURL pf (Dom.href anchor)] in
    let cb := Interceptor.navigate_frame pf in
    let st1 := snd (Interceptor.injectIframeInterceptor cb st) in
    let before := Interceptor.dispatch_click (a ++ q) st in
    let out := Interceptor.dispatch_click (a ++ q) st1 in
    (exists w1,
        contentWindow (frame st1) = Some w1 /\
        listeners (document w1)
        = listeners d ++ [{| ltype := "click"; handler := ClickInterceptor cb;
                             capture := true |}]) /\
    fst out = Ok {| etarget := a ++ q; defaultPrevented := true; propagationStopped := true |} /\
    Interceptor.redirects (trace (snd out))
    = Interceptor.redirects (trace (snd before)) ++ due /\
    (listeners d = [] ->
     forall k,
       Interceptor.redirects
         (trace (snd (Interceptor.dispatch_click (a ++ q) (Interceptor.install_times k cb st))))
       = Interceptor.redirects (trace st) ++ concat (repeat due k)).
Proof.
  intros st pm o d root a q anchor Hw Hr Hd Ha Ht Hm Hq due cb st1 before out.
  destruct (one_more_installation_one_more_redirect st pm o d root a q anchor
              Hw Hr Hd Ha Ht Hm Hq) as (F & S).
  split; [|split; [exact F | split; [exact S|]]].
  - destruct (inject_ready_document cb st pm o d Hw Hr) as (evs & E & _).
    subst st1. rewrite E. eexists. split; reflexivity.
  - intros Hl k. induction k as [|k IH].
    + cbn [Interceptor.install_times repeat concat]. rewrite app_nil_r.
      unfold Interceptor.dispatch_click, Interceptor.the_window, bind, get_frame, ret.
      rewrite Hw. cbn [document]. rewrite Hl. reflexivity.
    + destruct (install_times_ready k cb st pm o d Hw Hr) as (pm' & o' & d' & W & R & D).
      cbn [Interceptor.install_times].
      assert (Hr' : readyState d' <> Loading) by congruence.
      assert (Hd' : documentElement d' = Some root) by congruence.
      destruct (one_more_installation_one_more_redirect _ pm' o' d' root a q anchor
                  W Hr' Hd' Ha Ht Hm Hq) as (_ & S').
      fold cb in S'. rewrite S', IH. fold due.
      cbn [repeat concat]. now rewrite <- app_assoc, concat_repeat_comm.
Qed.

End LinkInterception.

(** A click on the [span] inside the marked link of the scenario page,
    after one installation and after two. *)
Lemma marked_link_activation_redirects_once_per_installation_witness :
  let st := Scenario.page_of (Scenario.window_of false
              (Scenario.document_of Js.Complete Scenario.linked_page)) in
  let cb := Interceptor.navigate_frame Scenario.quiet in
  let st1 := snd (Interceptor.injectIframeInterceptor cb st) in
  let out := Interceptor.dispatch_click ([1; 0] ++ [0]) st1 in
  Dom.elem_at Scenario.linked_page [1; 0]
  = Some (Scenario.element Dom.HTML "a"
            [("href", "https://x.test/p"); ("target", "_blank")] "https://x.test/p") /\
  fst out = Js.Ok {| Js.etarget := [1; 0; 0]; Js.defaultPrevented := true;
                     Js.propagationStopped := true |} /\
  Interceptor.redirects (Js.trace (snd out)) = [Scenario.encode "https://x.test/p"] /\
  Interceptor.redirects
    (Js.trace (snd (Interceptor.dispatch_click ([1; 0] ++ [0])
                      (Interceptor.install_times 2 cb st))))
  = [Scenario.encode "https://x.test/p"; Scenario.encode "https://x.test/p"].
Proof.
  intros st cb st1 out. split; [reflexivity|].
  destruct (marked_link_activation_redirects_once_per_installation Scenario.quiet st
              (Some Js.NativePM) (Some Js.NativeOpenFn)
              (Scenario.document_of Js.Complete Scenario.linked_page)
              Scenario.linked_page [1; 0] [0]
              (Scenario.element Dom.HTML "a"
                 [("href", "https://x.test/p"); ("target", "_blank")] "https://x.test/p"))
    as (_ & F & S & K).
  - reflexivity.
  - discriminate.
  - reflexivity.
  - reflexivity.
  - reflexivity.
  - reflexivity.
  - intros q1 q2 e E N He.
    destruct q1 as [|i [|j q1]]; [contradiction| |discriminate].
    injection E as <- _. simpl in He. injection He as <-. discriminate.
  - split; [exact F|]. split; [exact S|]. exact (K eq_refl 2).
Defined.

(** C4 as stated fails twice over. An activation of a marked anchor that
    has no [href] is suppressed but redirects nothing; and an activation
    inside an anchor without marker that sits inside a marked anchor is left
    alone, since the walk stops at the nearest anchor. *)
Lemma marked_link_activation_without_redirect :
  let cb := Interceptor.navigate_frame Scenario.quiet in
  let installed page :=
    Interceptor.install_times 1 cb
      (Scenario.page_of (Scenario.window_of false (Scenario.document_of Js.Complete page))) in
  let out1 := Interceptor.dispatch_click [1; 0] (installed Scenario.hrefless_page) in
  let out2 := Interceptor.dispatch_click [1; 0; 0] (installed Scenario.marked_outer_page) in
  (fst out1 = Js.Ok {| Js.etarget := [1; 0]; Js.defaultPrevented := true;
                       Js.propagationStopped := true |} /\
   Interceptor.redirects (Js.trace (snd out1)) = []) /\
  (fst out2 = Js.Ok {| Js.etarget := [1; 0; 0]; Js.defaultPrevented := false;
                       Js.propagationStopped := false |} /\
   Interceptor.redirects (Js.trace (snd out2)) = []).
Proof. repeat split. Qed.

(** ** The document tree *)

Ltac case_path_eq :=
  match goal with
  | |- context [list_eq_dec Nat.eq_dec ?a ?b] => destruct (list_eq_dec Nat.eq_dec a b)
  end.

Section DomFacts.

Lemma lookup_app root r q :
  Dom.lookup root (r ++ q) =
  match Dom.lookup root r with
  | Some n => Dom.lookup n q
  | None => None
  end.
Proof.
  revert root. induction r as [|i r IH]; intros root; simpl; [reflexivity|].
  destruct root as [d|e cs]; [reflexivity|].
  destruct (nth_error cs i); [apply IH | reflexivity].
Qed.

Lemma elem_at_app root r n q :
  Dom.lookup root r = Some n -> Dom.elem_at root (r ++ q) = Dom.elem_at n q.
Proof. intros H. unfold Dom.elem_at. now rewrite lookup_app, H. Qed.

Lemma elem_at_cons n j q :
  Dom.elem_at n (j :: q) =
  match n with
  | Dom.Text _ => None
  | Dom.Elem _ cs =>
      match nth_error cs j with
      | Some c => Dom.elem_at c q
      | None => None
      end
  end.
Proof.
  unfold Dom.elem_at. simpl. destruct n as [d|e cs]; [reflexivity|].
  destruct (nth_error cs j); reflexivity.
Qed.

Lemma nth_error_update_nth {A : Type} i j (g : A -> A) (l : list A) :
  nth_error (Dom.update_nth i g l) j =
  if Nat.eqb i j then option_map g (nth_error l j) else nth_error l j.
Proof.
  revert i j. induction l as [|x l IH]; intros i j.
  - destruct i, j; simpl; try reflexivity. destruct (Nat.eqb i j); reflexivity.
  - destruct i, j; simpl; try reflexivity. apply IH.
Qed.

(** An update changes the element at its path and no other. *)
Lemma elem_at_update f p root q :
  Dom.elem_at (Dom.update f p root) q =
  if list_eq_dec Nat.eq_dec q p
  then option_map f (Dom.elem_at root q)
  else Dom.elem_at root q.
Proof.
  revert p root. induction q as [|j q IH]; intros p root.
  - destruct p as [|i p], root as [d|e cs];
      case_path_eq; try congruence; reflexivity.
  - destruct p as [|i p].
    + destruct (list_eq_dec Nat.eq_dec (j :: q) []) as [E|_]; [discriminate|].
      destruct root as [d|e cs]; reflexivity.
    + destruct root as [d|e cs].
      * case_path_eq; reflexivity.
      * cbn [Dom.update]. rewrite !elem_at_cons, nth_error_update_nth.
        destruct (Nat.eqb i j) eqn:Eij.
        -- apply Nat.eqb_eq in Eij. subst i.
           destruct (nth_error cs j) as [c|]; cbn [option_map].
           ++ rewrite IH.
              destruct (list_eq_dec Nat.eq_dec q p), (list_eq_dec Nat.eq_dec (j :: q) (j :: p));
                try reflexivity; exfalso; congruence.
           ++ destruct (list_eq_dec Nat.eq_dec (j :: q) (j :: p)); reflexivity.
        -- apply Nat.eqb_neq in Eij.
           destruct (list_eq_dec Nat.eq_dec (j :: q) (i :: p)); [congruence | reflexivity].
Qed.

Lemma elem_at_update_same f p root :
  Dom.elem_at (Dom.update f p root) p = option_map f (Dom.elem_at root p).
Proof.
  rewrite elem_at_update. destruct (list_eq_dec Nat.eq_dec p p); congruence.
Qed.

Lemma getAttribute_removeAttribute name e :
  Dom.getAttribute (Dom.removeAttribute name e) name = None.
Proof.
  unfold Dom.getAttribute, Dom.removeAttribute. simpl.
  induction (Dom.attributes e) as [|[k v] l IH]; simpl; [reflexivity|].
  destruct (String.eqb k name) eqn:E; simpl; [exact IH | now rewrite E].
Qed.

Lemma SameButTarget_refl x : Dom.SameButTarget x x.
Proof. repeat split. now left. Qed.

Lemma SameButTarget_trans x y z :
  Dom.SameButTarget x y -> Dom.SameButTarget y z -> Dom.SameButTarget x z.
Proof.
  intros (N1 & L1 & H1 & R1 & T1) (N2 & L2 & H2 & R2 & T2).
  repeat split; try congruence.
  destruct T2 as [T2|T2]; [destruct T1 as [T1|T1]; [left | right]; congruence | now right].
Qed.

Lemma SameButTarget_remove x : Dom.SameButTarget x (Dom.removeAttribute "target" x).
Proof. repeat split. right. apply getAttribute_removeAttribute. Qed.

Lemma StripsOf_refl root : Dom.StripsOf root root.
Proof.
  intros p. destruct (Dom.elem_at root p) as [x|] eqn:E; [|reflexivity].
  exists x. split; [reflexivity | apply SameButTarget_refl].
Qed.

Lemma StripsOf_trans r1 r2 r3 :
  Dom.StripsOf r1 r2 -> Dom.StripsOf r2 r3 -> Dom.StripsOf r1 r3.
Proof.
  intros H12 H23 p. specialize (H12 p). specialize (H23 p).
  destruct (Dom.elem_at r1 p) as [x|].
  - destruct H12 as (y & Ey & Sy). rewrite Ey in H23. destruct H23 as (z & Ez & Sz).
    exists z. split; [assumption | eapply SameButTarget_trans; eassumption].
  - now rewrite H12 in H23.
Qed.

Lemma StripsOf_update root p :
  Dom.StripsOf root (Dom.update (Dom.removeAttribute "target") p root).
Proof.
  intros q. rewrite elem_at_update.
  destruct (Dom.elem_at root q) as [x|]; destruct (list_eq_dec Nat.eq_dec q p); simpl;
    try reflexivity.
  - eexists. split; [reflexivity | apply SameButTarget_remove].
  - eexists. split; [reflexivity | apply SameButTarget_refl].
Qed.

Lemma StripsOf_fold_update (g : Dom.Path -> Dom.Path) qs root :
  Dom.StripsOf root
    (fold_left (fun d q => Dom.update (Dom.removeAttribute "target") (g q) d) qs root).
Proof.
  revert root. induction qs as [|q qs IH]; intros root; simpl; [apply StripsOf_refl|].
  eapply StripsOf_trans; [apply StripsOf_update | apply IH].
Qed.

Lemma Stripped_StripsOf root root' p :
  Dom.Stripped root p -> Dom.StripsOf root root' -> Dom.Stripped root' p.
Proof.
  intros (y & Ey & Ty) H. specialize (H p). rewrite Ey in H.
  destruct H as (z & Ez & _ & _ & _ & _ & T). exists z. split; [assumption|].
  destruct T; congruence.
Qed.

Lemma Stripped_update root p x :
  Dom.elem_at root p = Some x ->
  Dom.Stripped (Dom.update (Dom.removeAttribute "target") p root) p.
Proof.
  intros E. eexists. rewrite elem_at_update_same, E. split; [reflexivity|].
  apply getAttribute_removeAttribute.
Qed.

(** Removing [target] along a list of paths strips every path of the list
    that holds an element. *)
Lemma fold_update_strips (g : Dom.Path -> Dom.Path) qs root q x :
  In q qs ->
  Dom.elem_at root (g q) = Some x ->
  Dom.Stripped
    (fold_left (fun d q' => Dom.update (Dom.removeAttribute "target") (g q') d) qs root)
    (g q).
Proof.
  revert root x. induction qs as [|q0 qs IH]; intros root x Hin E; [contradiction|].
  simpl. destruct Hin as [->|Hin].
  - eapply Stripped_StripsOf; [eapply Stripped_update; eassumption|].
    apply StripsOf_fold_update.
  - pose proof (StripsOf_update root (g q0) (g q)) as H. rewrite E in H.
    destruct H as (y & Ey & _). eapply IH; eassumption.
Qed.

Lemma children_paths_in below j cs i c q :
  nth_error cs i = Some c ->
  q = [] \/ In q (below c) ->
  In ((j + i) :: q) (Dom.children_paths below j cs).
Proof.
  revert j i. induction cs as [|c0 cs IH]; intros j i Hn Hq.
  - destruct i; discriminate.
  - destruct i as [|i]; simpl in Hn.
    + injection Hn as ->. rewrite Nat.add_0_r. simpl.
      destruct Hq as [->|Hq]; [now left|].
      right. apply in_or_app. left. now apply in_map.
    + simpl. right. apply in_or_app. right.
      replace (j + S i) with (S j + i) by lia. now apply IH.
Qed.

(** Every node strictly below a node is among its descendants. *)
Lemma descendants_complete q n x :
  q <> [] -> Dom.lookup n q = Some x -> In q (Dom.descendants n).
Proof.
  revert n. induction q as [|i q IH]; intros n Hq Hl; [contradiction|].
  destruct n as [d|e cs]; [discriminate|]. simpl in Hl.
  destruct (nth_error cs i) as [c|] eqn:Hn; [|discriminate].
  apply (children_paths_in Dom.descendants 0 cs i c q Hn).
  destruct q as [|k q']; [now left|]. right. apply IH; [discriminate | assumption].
Qed.

(** An anchor with one of the two marker values is matched by the selector. *)
Lemma marker_matches_selector x :
  Dom.localName x = "a" ->
  Dom.isNewContextMarker (Dom.getAttribute x "target") = true ->
  Dom.matches_selector x = true.
Proof.
  unfold Dom.matches_selector, Dom.attr_selector_matches, Dom.isNewContextMarker.
  intros -> H. simpl. destruct (Dom.getAttribute x "target") as [v|]; [|discriminate].
  apply orb_true_iff in H.
  destruct H as [H|H]; apply String.eqb_eq in H; subst v; destruct (Dom.is_html (Dom.ns x));
    reflexivity.
Qed.

End DomFacts.

(** ** Markup inserted after installation *)

Section DynamicContent.
Import Js.

Lemma elem_at_lookup root p x :
  Dom.elem_at root p = Some x -> exists cs, Dom.lookup root p = Some (Dom.Elem x cs).
Proof.
  unfold Dom.elem_at. destruct (Dom.lookup root p) as [[d|e cs]|]; try discriminate.
  intros [= ->]. now exists cs.
Qed.

Lemma SameButTarget_kind x y :
  Dom.SameButTarget x y ->
  Dom.isHTMLAnchorElement y = Dom.isHTMLAnchorElement x /\
  Dom.isHTMLElement y = Dom.isHTMLElement x.
Proof.
  intros (N & L & _ & R & _). unfold Dom.isHTMLAnchorElement, Dom.isHTMLElement.
  now rewrite N, L, R.
Qed.

Lemma strip_added_node_StripsOf root r :
  Dom.StripsOf root (Interceptor.strip_added_node root r).
Proof.
  unfold Interceptor.strip_added_node.
  destruct (Dom.lookup root r) as [[d|e cs]|]; try apply StripsOf_refl.
  destruct (Dom.isHTMLAnchorElement e).
  - destruct (Dom.isNewContextMarker _); [apply StripsOf_update | apply StripsOf_refl].
  - destruct (Dom.isHTMLElement e); [|apply StripsOf_refl].
    apply (StripsOf_fold_update (fun q => r ++ q)).
Qed.

Lemma fold_strip_StripsOf rs root :
  Dom.StripsOf root (fold_left Interceptor.strip_added_node rs root).
Proof.
  revert root. induction rs as [|r rs IH]; intros root; simpl; [apply StripsOf_refl|].
  eapply StripsOf_trans; [apply strip_added_node_StripsOf | apply IH].
Qed.

Lemma observer_callback_flat mutations root :
  Interceptor.observer_callback mutations root =
  fold_left Interceptor.strip_added_node (flat_map addedNodes mutations) root.
Proof.
  unfold Interceptor.observer_callback. revert root.
  induction mutations as [|m ms IH]; intros root; simpl; [reflexivity|].
  now rewrite fold_left_app, IH.
Qed.

(** One added node, processed while the anchor still carries its marker. *)
Lemma strip_added_node_strips root r q x :
  Dom.elem_at root (r ++ q) = Some x ->
  Dom.isNewContextMarker (Dom.getAttribute x "target") = true ->
  Interceptor.Handled root r q x ->
  Dom.Stripped (Interceptor.strip_added_node root r) (r ++ q).
Proof.
  intros Ex Hm [[-> Ha] | (Hq & Hl & e & Ee & He & Hna)].
  - rewrite app_nil_r in *. destruct (elem_at_lookup _ _ _ Ex) as (cs & Hr).
    unfold Interceptor.strip_added_node. rewrite Hr, Ha, Hm.
    eapply Stripped_update; eassumption.
  - destruct (elem_at_lookup _ _ _ Ee) as (cs & Hr).
    destruct (elem_at_lookup _ _ _ Ex) as (xs & Hx).
    unfold Interceptor.strip_added_node, Dom.querySelectorAll. rewrite Hr, Hna, He.
    apply (fold_update_strips (fun q' => r ++ q') _ root q x); [|assumption].
    apply filter_In. split.
    + rewrite lookup_app, Hr in Hx. eapply descendants_complete; eassumption.
    + rewrite <- (elem_at_app root r _ q Hr), Ex. now apply marker_matches_selector.
Qed.

(** One observation cycle strips every marked anchor that was inserted in
    one of the two handled shapes. *)
Lemma observer_callback_strips mutations root m r q x :
  In m mutations ->
  In r (addedNodes m) ->
  Dom.elem_at root (r ++ q) = Some x ->
  Dom.isNewContextMarker (Dom.getAttribute x "target") = true ->
  Interceptor.Handled root r q x ->
  exists y,
    Dom.elem_at (Interceptor.observer_callback mutations root) (r ++ q) = Some y /\
    Dom.getAttribute y "target" = None /\
    Dom.SameButTarget x y.
Proof.
  intros Hm Hr Ex Hmark Hh. rewrite observer_callback_flat.
  assert (Hin : In r (flat_map addedNodes mutations))
    by (apply in_flat_map; eauto).
  destruct (in_split _ _ Hin) as (l1 & l2 & ->).
  rewrite fold_left_app. cbn [fold_left].
  set (root1 := fold_left Interceptor.strip_added_node l1 root).
  assert (S1 : Dom.StripsOf root root1) by apply fold_strip_StripsOf.
  assert (Hs : Dom.Stripped (Interceptor.strip_added_node root1 r) (r ++ q)).
  { pose proof (S1 (r ++ q)) as H1. rewrite Ex in H1.
    destruct H1 as (y1 & Ey1 & Sy1).
    destruct Sy1 as (N1 & L1 & H1 & R1 & [T1|T1]).
    - apply (strip_added_node_strips root1 r q y1 Ey1); [congruence|].
      destruct Hh as [[-> Ha] | (Hq & Hl & e & Ee & He & Hna)].
      + left. split; [reflexivity|].
        unfold Dom.isHTMLAnchorElement in *. now rewrite N1, L1, R1.
      + right. split; [assumption|]. split; [congruence|].
        pose proof (S1 r) as H2. rewrite Ee in H2. destruct H2 as (e1 & Ee1 & Se1).
        destruct (SameButTarget_kind _ _ Se1) as (K1 & K2).
        exists e1. repeat split; congruence.
    - eapply Stripped_StripsOf; [|apply strip_added_node_StripsOf].
      exists y1. split; assumption. }
  assert (Hf : Dom.Stripped
                 (fold_left Interceptor.strip_added_node l2
                    (Interceptor.strip_added_node root1 r)) (r ++ q))
    by (eapply Stripped_StripsOf; [exact Hs | apply fold_strip_StripsOf]).
  destruct Hf as (y & Ey & Ty). exists y. split; [assumption | split; [assumption|]].
  assert (Sall : Dom.StripsOf root
                   (fold_left Interceptor.strip_added_node l2
                      (Interceptor.strip_added_node root1 r))).
  { eapply StripsOf_trans; [exact S1|].
    eapply StripsOf_trans; [apply strip_added_node_StripsOf | apply fold_strip_StripsOf]. }
  specialize (Sall (r ++ q)). rewrite Ex in Sall. destruct Sall as (y' & Ey' & Sy').
  congruence.
Qed.

End DynamicContent.

Lemma put_tree_spec root st w :
  Js.contentWindow (Js.frame st) = Some w ->
  exists w',
    Interceptor.put_tree root st
    = (Js.Ok tt,
       {| Js.frame := {| Js.contentWindow := Some w';
                         Js.loadListeners := Js.loadListeners (Js.frame st) |};
          Js.trace := Js.trace st |}) /\
    Js.documentElement (Js.document w') = Some root /\
    Js.observers (Js.document w') = Js.observers (Js.document w).
Proof.
  destruct st as [[cw ll] tr]. cbn. intros ->.
  unfold Interceptor.put_tree, Interceptor.put_document, Interceptor.put_window,
    Interceptor.the_window, Js.bind, Js.get_frame, Js.put_frame, Js.ret.
  cbn. eexists. split; [reflexivity|]. split; reflexivity.
Qed.

(** One observation cycle on a realm with one subtree observer. *)
Lemma notify_single_observer mutations st w root t :
  Js.contentWindow (Js.frame st) = Some w ->
  Js.observers (Js.document w)
  = [{| Js.observed := t; Js.childList := true; Js.subtree := true |}] ->
  Js.documentElement (Js.document w) = Some root ->
  Interceptor.notify_observers mutations st =
  match filter (fun m => Interceptor.is_prefix t (Js.mtarget m)) mutations with
  | [] => (Js.Ok tt, st)
  | seen => Interceptor.put_tree (Interceptor.observer_callback seen root) st
  end.
Proof.
  destruct st as [[cw ll] tr]. cbn [Js.frame Js.contentWindow]. intros -> Ho Hd.
  unfold Interceptor.notify_observers, Interceptor.deliver_mutations,
    Interceptor.the_window, Js.bind, Js.get_frame, Js.ret.
  cbn -[Interceptor.observer_callback filter Interceptor.put_tree].
  rewrite Ho. cbn -[Interceptor.observer_callback filter Interceptor.put_tree].
  unfold Js.bind, Js.ret. cbn -[Interceptor.observer_callback filter Interceptor.put_tree].
  rewrite Hd.
  destruct (filter _ mutations) as [|m0 seen]; [reflexivity|].
  destruct (Interceptor.put_tree _ _) as [[[]|e] st']; reflexivity.
Qed.

(** What the observer does when its tests pass. For nodes that are
    instances of the embedding page's classes (nodes the embedding page
    created and moved into the frame), one observation cycle removes the
    [target] attribute, in place, from a marked anchor that is the added
    HTML anchor itself or that lies strictly below an added HTML element
    that is not an anchor, and emits nothing. *)
Lemma embedder_realm_anchor_is_stripped :
  forall (cb : string -> list Js.Event) (st : Js.St)
         (pm : option Js.PMFn) (o : option Js.OpenFn) (d : Js.Document) (t : Dom.Path)
         (root : Dom.Node) (mutations : list Js.MutationRecord) (m : Js.MutationRecord)
         (r q : Dom.Path) (x : Dom.Element),
    Js.contentWindow (Js.frame st)
    = Some {| Js.cross_origin := false; Js.postMessage := pm;
              Js.open := o; Js.document := d |} ->
    Js.readyState d <> Js.Loading ->
    Js.observers d = [] ->
    Interceptor.observeTarget d = Some t ->
    In m mutations ->
    Interceptor.is_prefix t (Js.mtarget m) = true ->
    In r (Js.addedNodes m) ->
    Dom.elem_at root (r ++ q) = Some x ->
    Dom.isNewContextMarker (Dom.getAttribute x "target") = true ->
    Interceptor.Handled root r q x ->
    let st1 := snd (Interceptor.injectIframeInterceptor cb st) in
    let st2 := snd (Interceptor.put_tree root st1) in
    let out := Interceptor.notify_observers mutations st2 in
    fst out = Js.Ok tt /\
    Js.trace (snd out) = Js.trace st2 /\
    exists w' root' y,
      Js.contentWindow (Js.frame (snd out)) = Some w' /\
      Js.documentElement (Js.document w') = Some root' /\
      Dom.elem_at root' (r ++ q) = Some y /\
      Dom.getAttribute y "target" = None /\
      Dom.SameButTarget x y.
Proof.
  intros cb st pm o d t root mutations m r q x Hw Hr Ho Ht Hm Hp Hin Ex Hmark Hh st1 st2 out.
  destruct (inject_ready_document cb st pm o d Hw Hr) as (evs & E & _).
  rewrite Ho, Ht in E. cbn [app] in E.
  subst out st2 st1. rewrite E. cbn [snd].
  match goal with
  | |- context [Interceptor.put_tree root ?s] =>
      pose proof (put_tree_spec root s) as P2;
      cbn [Js.frame Js.contentWindow] in P2;
      destruct (P2 _ eq_refl) as (w2 & E2 & D2 & O2); clear P2
  end.
  rewrite E2. cbn [snd]. cbn [Js.document Js.observers] in O2.
  erewrite (notify_single_observer mutations _ w2 root t); [|reflexivity | exact O2 | exact D2].
  set (seen := filter (fun m' => Interceptor.is_prefix t (Js.mtarget m')) mutations).
  assert (Hs : In m seen) by (apply filter_In; split; assumption).
  destruct (observer_callback_strips seen root m r q x Hs Hin Ex Hmark Hh)
    as (y & Ey & Ty & Sy).
  destruct seen as [|m0 seen']; [contradiction|].
  match goal with
  | |- context [Interceptor.put_tree ?tree ?s] =>
      pose proof (put_tree_spec tree s) as P3;
      cbn [Js.frame Js.contentWindow] in P3;
      destruct (P3 _ eq_refl) as (w3 & E3 & D3 & _); clear P3
  end.
  rewrite E3. cbn [fst snd Js.trace Js.frame Js.contentWindow].
  split; [reflexivity | split; [reflexivity|]].
  eexists w3, _, y. split; [reflexivity|]. split; [exact D3|].
  split; [exact Ey | split; [exact Ty | exact Sy]].
Qed.

(** Nothing is done with an added node that the framed document created:
    it is an instance of neither class of the embedding page. *)
Lemma strip_added_node_framed root r :
  (forall e, Dom.elem_at root r = Some e -> Dom.realm e = Realm.Framed) ->
  Interceptor.strip_added_node root r = root.
Proof.
  intros H. unfold Interceptor.strip_added_node.
  destruct (Dom.lookup root r) as [[d|e cs]|] eqn:L; try reflexivity.
  assert (R : Dom.realm e = Realm.Framed) by (apply H; unfold Dom.elem_at; now rewrite L).
  unfold Dom.isHTMLAnchorElement, Dom.isHTMLElement. now rewrite R.
Qed.

Lemma observer_callback_framed mutations root :
  (forall m r e, In m mutations -> In r (Js.addedNodes m) ->
                 Dom.elem_at root r = Some e -> Dom.realm e = Realm.Framed) ->
  Interceptor.observer_callback mutations root = root.
Proof.
  intros H. rewrite observer_callback_flat.
  assert (G : forall r e, In r (flat_map Js.addedNodes mutations) ->
                          Dom.elem_at root r = Some e -> Dom.realm e = Realm.Framed).
  { intros r e Hin. apply in_flat_map in Hin. destruct Hin as (m & Hm & Hr). eauto. }
  clear H. induction (flat_map Js.addedNodes mutations) as [|r rs IH]; [reflexivity|].
  cbn [fold_left]. rewrite strip_added_node_framed.
  - apply IH. intros r' e Hin. apply G. now right.
  - intros e. apply G. now left.
Qed.

(** Writing back the tree the document already has changes nothing. *)
Lemma put_tree_same root st w :
  Js.contentWindow (Js.frame st) = Some w ->
  Js.documentElement (Js.document w) = Some root ->
  Interceptor.put_tree root st = (Js.Ok tt, st).
Proof.
  destruct st as [[cw ll] tr]. cbn. intros -> Hd.
  destruct w as [c pm o [rs ls os de]]. cbn in Hd. subst de.
  reflexivity.
Qed.

(** An observation cycle over nodes of the framed document, whatever the
    observers. *)
Lemma notify_observers_framed mutations st w root :
  Js.contentWindow (Js.frame st) = Some w ->
  Js.documentElement (Js.document w) = Some root ->
  (forall m r e, In m mutations -> In r (Js.addedNodes m) ->
                 Dom.elem_at root r = Some e -> Dom.realm e = Realm.Framed) ->
  Interceptor.notify_observers mutations st = (Js.Ok tt, st).
Proof.
  intros Hw Hd Hf.
  unfold Interceptor.notify_observers, Interceptor.the_window, Js.bind, Js.get_frame.
  rewrite Hw. unfold Js.ret.
  induction (Js.observers (Js.document w)) as [|o os IH]; [reflexivity|].
  cbn [map Interceptor.run_all]. unfold Js.bind at 1.
  assert (D : Interceptor.deliver_mutations o mutations st = (Js.Ok tt, st)).
  { unfold Interceptor.deliver_mutations, Interceptor.the_window, Js.bind, Js.get_frame.
    rewrite Hw. unfold Js.ret. rewrite Hd.
    destruct (filter _ mutations) as [|m0 seen] eqn:F; [reflexivity|].
    rewrite observer_callback_framed; [now apply (put_tree_same root st w)|].
    intros m r e Hm. apply Hf.
    assert (In m (filter (fun m1 => Js.childList o &&
                 (if Js.subtree o then Interceptor.is_prefix (Js.observed o) (Js.mtarget m1)
                  else Interceptor.is_prefix (Js.observed o) (Js.mtarget m1) &&
                       Interceptor.is_prefix (Js.mtarget m1) (Js.observed o))) mutations))
      by (rewrite F; exact Hm).
    now apply filter_In in H. }
  rewrite D. exact IH.
Qed.

(** C7. After installation on an accessible realm whose document is past
    loading, an observer is in place; yet one observation cycle over records
    whose added nodes the framed document created, as the parser and the
    scripts of the framed page create them, leaves the document exactly as
    it was. The tests [instanceof HTMLAnchorElement] and
    [instanceof HTMLElement] are made against the classes of the embedding
    page, no node of the frame passes them, and every inserted marked anchor
    keeps its marker. *)
Theorem observer_leaves_markers_of_framed_nodes :
  forall (cb : string -> list Js.Event) (st : Js.St)
         (pm : option Js.PMFn) (o : option Js.OpenFn) (d : Js.Document) (t : Dom.Path)
         (root : Dom.Node) (mutations : list Js.MutationRecord),
    Js.contentWindow (Js.frame st)
    = Some {| Js.cross_origin := false; Js.postMessage := pm;
              Js.open := o; Js.document := d |} ->
    Js.readyState d <> Js.Loading ->
    Interceptor.observeTarget d = Some t ->
    (forall m r e, In m mutations -> In r (Js.addedNodes m) ->
                   Dom.elem_at root r = Some e -> Dom.realm e = Realm.Framed) ->
    let st1 := snd (Interceptor.injectIframeInterceptor cb st) in
    let st2 := snd (Interceptor.put_tree root st1) in
    (exists w2,
        Js.contentWindow (Js.frame st2) = Some w2 /\
        Js.documentElement (Js.document w2) = Some root /\
        In {| Js.observed := t; Js.childList := true; Js.subtree := true |}
           (Js.observers (Js.document w2))) /\
    Interceptor.notify_observers mutations st2 = (Js.Ok tt, st2).
Proof.
  intros cb st pm o d t root mutations Hw Hr Ht Hf st1 st2.
  destruct (inject_ready_document cb st pm o d Hw Hr) as (evs & E & _).
  rewrite Ht in E.
  subst st2 st1. rewrite E. cbn [snd].
  match goal with
  | |- context [Interceptor.put_tree root ?s] =>
      pose proof (put_tree_spec root s) as P2;
      cbn [Js.frame Js.contentWindow] in P2;
      destruct (P2 _ eq_refl) as (w2 & E2 & D2 & O2); clear P2
  end.
  rewrite E2. cbn [snd]. cbn [Js.document Js.observers] in O2. split.
  - exists w2. split; [reflexivity|]. split; [exact D2|].
    rewrite O2. apply in_or_app. right. now left.
  - now apply (notify_observers_framed mutations _ w2 root).
Qed.

(** A [div] holding a marked anchor, appended to the body by a script of
    the framed page after installation: the anchor keeps [target="_new"]. *)
Lemma observer_leaves_markers_of_framed_nodes_witness :
  let cb := Interceptor.navigate_frame Scenario.quiet in
  let st := Scenario.page_of (Scenario.window_of false
              (Scenario.document_of Js.Complete Scenario.linked_page)) in
  let record := {| Js.mtarget := [1]; Js.addedNodes := [[1; 0]] |} in
  let st1 := snd (Interceptor.injectIframeInterceptor cb st) in
  let st2 := snd (Interceptor.put_tree Scenario.inserted_div_page st1) in
  Dom.elem_at Scenario.inserted_div_page [1; 0; 0]
  = Some (Scenario.element Dom.HTML "a" [("href", "/b"); ("target", "_new")]
            "https://x.test/b") /\
  Interceptor.is_prefix [1] (Js.mtarget record) = true /\
  Interceptor.notify_observers [record] st2 = (Js.Ok tt, st2) /\
  exists w2,
    Js.contentWindow (Js.frame st2) = Some w2 /\
    Js.documentElement (Js.document w2) = Some Scenario.inserted_div_page.
Proof.
  intros cb st record st1 st2. split; [reflexivity | split; [reflexivity|]].
  destruct (observer_leaves_markers_of_framed_nodes cb st
              (Some Js.NativePM) (Some Js.NativeOpenFn)
              (Scenario.document_of Js.Complete Scenario.linked_page) [1]
              Scenario.inserted_div_page [record]) as ((w2 & W & D & _) & N).
  - reflexivity.
  - discriminate.
  - reflexivity.
  - intros m r e [<-|[]] [<-|[]] E. cbn in E. injection E as <-. reflexivity.
  - split; [exact N|]. exists w2. split; [exact W | exact D].
Defined.

(** ** The service worker *)

Section Worker.
Import ServiceWorker.

Lemma string_length_append (a b : string) :
  String.length (a ++ b)%string = String.length a + String.length b.
Proof. induction a as [|c a IH]; simpl; [reflexivity | now rewrite IH]. Qed.

(** Whatever the listener answers with is the fixed failure response or a
    response exactly as one of its three sources produced it. *)
Lemma respond_passes_through env request :
  respond env request = failure_response \/
  uv_fetch env request = Fulfilled (respond env request) \/
  sj_fetch env request = Fulfilled (respond env request) \/
  exists n, net_fetch env n request = Fulfilled (respond env request).
Proof.
  unfold respond, route.
  destruct (sj_loadConfig env) as [[]|r0].
  - destruct (Str.startsWith _ _).
    + destruct (uv_fetch env request) as [r|e] eqn:U; [right; left; reflexivity|].
      destruct (net_fetch env 0 request) as [r|e'] eqn:N; [|now left].
      right; right; right. now exists 0.
    + destruct (sj_route env request) as [[|]|e] eqn:R.
      * destruct (sj_fetch env request) as [r|e] eqn:S; [right; right; left; reflexivity|].
        destruct (net_fetch env 0 request) as [r|e'] eqn:N; [|now left].
        right; right; right. now exists 0.
      * destruct (net_fetch env 0 request) as [r|e] eqn:N0.
        -- right; right; right. now exists 0.
        -- destruct (net_fetch env 1 request) as [r|e'] eqn:N1; [|now left].
           right; right; right. now exists 1.
      * destruct (net_fetch env 0 request) as [r|e'] eqn:N; [|now left].
        right; right; right. now exists 0.
  - destruct (net_fetch env 0 request) as [r|e'] eqn:N; [|now left].
    right; right; right. now exists 0.
Qed.

End Worker.

(** C1. The fetch listener hands every response on as its source produced
    it. For the HTML response of the specification's scenario, routed
    through the Ultraviolet proxy, the delivered body is the upstream body:
    nothing stands between the head-open tag and what followed it, and the
    content-length header is the upstream one. *)
Theorem worker_delivers_html_without_interceptor_script :
  let out := ServiceWorker.respond Scenario.uv_worker Scenario.proxied_request in
  (forall env request,
      ServiceWorker.respond env request = ServiceWorker.failure_response \/
      ServiceWorker.uv_fetch env request
      = ServiceWorker.Fulfilled (ServiceWorker.respond env request) \/
      ServiceWorker.sj_fetch env request
      = ServiceWorker.Fulfilled (ServiceWorker.respond env request) \/
      exists n, ServiceWorker.net_fetch env n request
                = ServiceWorker.Fulfilled (ServiceWorker.respond env request)) /\
  ServiceWorker.is_html Scenario.html_response = true /\
  Str.includes (ServiceWorker.body Scenario.html_response) "<head>" = true /\
  out = Scenario.html_response /\
  ServiceWorker.body out = "<html><head></head><body>hi</body></html>" /\
  ServiceWorker.header "content-length" (ServiceWorker.headers out) = Some "41" /\
  (forall payload,
      payload <> "" ->
      ServiceWorker.body out
      <> ("<html><head>" ++ payload ++ "</head><body>hi</body></html>")%string).
Proof.
  intros out. split; [exact respond_passes_through|].
  repeat (split; [reflexivity|]).
  intros payload Hp H. apply (f_equal String.length) in H.
  cbn in H. rewrite string_length_append in H.
  destruct payload; [congruence|]. cbn in H. lia.
Qed.

(** * Further properties of the code *)

(** ** Cookies and frames of the CAPTCHA handler *)

Section CaptchaPageFacts.
Import Js.

Lemma substring_append_l p s t : Str.Substring p s -> Str.Substring p (s ++ t)%string.
Proof.
  intros (pre & post & ->). exists pre, (post ++ t)%string.
  now rewrite !append_assoc.
Qed.

Lemma substring_append_r p s t : Str.Substring p t -> Str.Substring p (s ++ t)%string.
Proof.
  intros (pre & post & ->). exists (s ++ pre)%string, post.
  now rewrite !append_assoc.
Qed.

Lemma substring_trans a b c : Str.Substring a b -> Str.Substring b c -> Str.Substring a c.
Proof.
  intros (p1 & q1 & ->) (p2 & q2 & ->).
  exists (p2 ++ p1)%string, (q1 ++ q2)%string. now rewrite !append_assoc.
Qed.

Lemma includes_append_l p s t :
  Str.includes s p = true -> Str.includes (s ++ t)%string p = true.
Proof. rewrite !includes_spec. apply substring_append_l. Qed.

Lemma includes_append_r p s t :
  Str.includes t p = true -> Str.includes (s ++ t)%string p = true.
Proof. rewrite !includes_spec. apply substring_append_r. Qed.

Lemma startsWith_append s t : Str.startsWith (s ++ t)%string s = true.
Proof. apply startsWith_spec. now exists t. Qed.

(** X8. The patched cookie setter appends [; SameSite=None; Secure], that
    text and no other, to a string that mentions [_GRECAPTCHA] and does not
    mention [SameSite], and to nothing else: a [_GRECAPTCHA] cookie that
    already mentions [SameSite], a string that does not mention
    [_GRECAPTCHA] and a value that is no string are written as they are. So
    what it writes for a [_GRECAPTCHA] cookie starts with what was assigned
    and mentions [SameSite], and writing what it wrote changes nothing
    further. *)
Theorem cookie_setter_adds_samesite_once :
  (forall value,
      CaptchaPage.cookie_setter_value (CaptchaPage.cookie_setter_value value)
      = CaptchaPage.cookie_setter_value value) /\
  (forall s,
      Str.includes s "_GRECAPTCHA" = true ->
      exists s',
        CaptchaPage.cookie_setter_value (VString s) = VString s' /\
        Str.startsWith s' s = true /\
        Str.includes s' "SameSite" = true) /\
  (forall s,
      Str.includes s "_GRECAPTCHA" = false ->
      CaptchaPage.cookie_setter_value (VString s) = VString s) /\
  (forall value,
      (forall s, value <> VString s) ->
      CaptchaPage.cookie_setter_value value = value) /\
  (forall s,
      Str.includes s "_GRECAPTCHA" = true ->
      Str.includes s "SameSite" = false ->
      CaptchaPage.cookie_setter_value (VString s)
      = VString (s ++ "; SameSite=None; Secure")%string) /\
  (forall s,
      Str.includes s "_GRECAPTCHA" = true ->
      Str.includes s "SameSite" = true ->
      CaptchaPage.cookie_setter_value (VString s) = VString s).
Proof.
  split; [|split; [|split; [|split; [|split]]]].
  - intros [| |s|n]; try reflexivity. unfold CaptchaPage.cookie_setter_value.
    destruct (Str.includes s "_GRECAPTCHA") eqn:G.
    + destruct (Str.includes s "SameSite") eqn:S; simpl.
      * now rewrite G, S.
      * now rewrite (includes_append_l _ _ _ G),
          (includes_append_r "SameSite" s "; SameSite=None; Secure" eq_refl).
    + now rewrite G.
  - intros s G. unfold CaptchaPage.cookie_setter_value. rewrite G.
    destruct (Str.includes s "SameSite") eqn:S; simpl.
    + exists s. split; [reflexivity|]. split; [|assumption].
      apply startsWith_spec. exists "". clear. induction s; simpl; congruence.
    + eexists. split; [reflexivity|]. split; [apply startsWith_append|].
      now apply includes_append_r.
  - intros s G. unfold CaptchaPage.cookie_setter_value. now rewrite G.
  - intros [| |s|n] H; try reflexivity. now destruct (H s).
  - intros s G S. unfold CaptchaPage.cookie_setter_value. now rewrite G, S.
  - intros s G S. unfold CaptchaPage.cookie_setter_value. now rewrite G, S.
Qed.

Lemma existsb_eqb_In t l : existsb (String.eqb t) l = true <-> In t l.
Proof.
  rewrite existsb_exists. split.
  - intros (x & Hin & E). apply String.eqb_eq in E. now subst.
  - intros H. exists t. split; [assumption | apply String.eqb_refl].
Qed.

Lemma In_token_add x t l : In x (CaptchaPage.token_add t l) <-> x = t \/ In x l.
Proof.
  unfold CaptchaPage.token_add. destruct (existsb (String.eqb t) l) eqn:E.
  - apply existsb_eqb_In in E. split; [now right | intros [->|H]; assumption].
  - rewrite in_app_iff. simpl. split; [intros [H|[H|[]]]; auto | intros [H|H]; auto].
Qed.

Lemma token_add_present t l : In t l -> CaptchaPage.token_add t l = l.
Proof.
  intros H. unfold CaptchaPage.token_add. apply existsb_eqb_In in H. now rewrite H.
Qed.

Lemma token_add_NoDup t l : NoDup l -> NoDup (CaptchaPage.token_add t l).
Proof.
  intros H. unfold CaptchaPage.token_add. destruct (existsb (String.eqb t) l) eqn:E;
    [assumption|].
  apply NoDup_app; [assumption | repeat constructor; intros [] | ].
  intros x Hx [<-|[]]. apply existsb_eqb_In in Hx. congruence.
Qed.

(** X9. The frame observer only ever relaxes a CAPTCHA frame that already
    has a non-empty sandbox: it never removes a token, never adds a token
    other than the three permissions, keeps a frame without sandbox tokens
    without any, leaves every other node as it is, and handling a node twice
    is handling it once. *)
Theorem frame_observer_only_adds_permissions :
  forall f : CaptchaPage.IframeElement,
  exists g,
    CaptchaPage.prepare_added_node (CaptchaPage.AddedIframe f) = CaptchaPage.AddedIframe g /\
    CaptchaPage.src g = CaptchaPage.src f /\
    (forall t, In t (CaptchaPage.sandbox f) -> In t (CaptchaPage.sandbox g)) /\
    (forall t, In t (CaptchaPage.sandbox g) ->
               In t (CaptchaPage.sandbox f) \/
               In t ["allow-same-origin"; "allow-scripts"; "allow-forms"]) /\
    (CaptchaPage.sandbox f = [] -> CaptchaPage.sandbox g = []) /\
    (NoDup (CaptchaPage.sandbox f) -> NoDup (CaptchaPage.sandbox g)) /\
    (CaptchaPage.is_captcha_frame (CaptchaPage.src f) = true ->
     CaptchaPage.credentialless g = false /\
     (CaptchaPage.sandbox f <> [] ->
      In "allow-same-origin" (CaptchaPage.sandbox g) /\
      In "allow-scripts" (CaptchaPage.sandbox g) /\
      In "allow-forms" (CaptchaPage.sandbox g))) /\
    (CaptchaPage.is_captcha_frame (CaptchaPage.src f) = false -> g = f) /\
    CaptchaPage.prepare_added_node (CaptchaPage.AddedIframe g) = CaptchaPage.AddedIframe g.
Proof.
  intros [s sb c]. unfold CaptchaPage.prepare_added_node. cbn [CaptchaPage.src CaptchaPage.sandbox].
  destruct (CaptchaPage.is_captcha_frame s) eqn:C.
  - destruct sb as [|t0 sb].
    + eexists. split; [reflexivity|]. cbn. rewrite C. cbn.
      repeat split; try tauto; try discriminate.
    + eexists. split; [reflexivity|].
      cbn [length Nat.ltb Nat.leb CaptchaPage.src CaptchaPage.sandbox CaptchaPage.credentialless].
      rewrite C.
      set (sb3 := CaptchaPage.token_add "allow-forms"
                    (CaptchaPage.token_add "allow-scripts"
                       (CaptchaPage.token_add "allow-same-origin" (t0 :: sb)))).
      assert (M : forall t, In t sb3 <->
                  t = "allow-forms" \/ t = "allow-scripts" \/ t = "allow-same-origin" \/
                  In t (t0 :: sb))
        by (intros t; unfold sb3; rewrite !In_token_add; reflexivity).
      split; [reflexivity|]. split; [intros t H; apply M; auto|].
      split; [intros t H; apply M in H; simpl; intuition auto|].
      split; [discriminate|].
      split; [intros H; unfold sb3; now repeat apply token_add_NoDup|].
      split; [intros _; split; [reflexivity | intros _; repeat split; apply M; auto]|].
      split; [discriminate|].
      rewrite (token_add_present "allow-same-origin" sb3) by (apply M; auto).
      rewrite (token_add_present "allow-scripts" sb3) by (apply M; auto).
      rewrite (token_add_present "allow-forms" sb3) by (apply M; auto).
      destruct (length sb3); reflexivity.
  - exists {| CaptchaPage.src := s; CaptchaPage.sandbox := sb; CaptchaPage.credentialless := c |}.
    cbn. rewrite C. repeat split; try tauto; try discriminate.
Qed.

(** X10. Every frame address the handler treats as a CAPTCHA frame is a
    URL the interceptor's classifier trusts; on an address written in lower
    case the two tests agree, and in general the handler's test is the
    narrower one, being sensitive to case. *)
Theorem captcha_frames_are_trusted_urls :
  (forall src,
      CaptchaPage.is_captcha_frame src = true ->
      Interceptor_Domains.isCaptchaUrl src = true) /\
  (forall src,
      Str.toLowerCase src = src ->
      Interceptor_Domains.isCaptchaUrl src = CaptchaPage.is_captcha_frame src) /\
  (exists src,
      Interceptor_Domains.isCaptchaUrl src = true /\
      CaptchaPage.is_captcha_frame src = false).
Proof.
  assert (A : forall src, CaptchaPage.is_captcha_frame src = true ->
                          exists d, In d Interceptor_Domains.CAPTCHA_DOMAINS /\
                                    Str.includes src d = true).
  { unfold CaptchaPage.is_captcha_frame. intros src H.
    repeat (apply orb_true_iff in H; destruct H as [H|H]);
      eexists; (split; [|exact H]); simpl; tauto. }
  split; [|split].
  - intros src H. destruct (A src H) as (d & Hin & Hd).
    apply isCaptchaUrl_spec. exists d. split; [assumption|].
    apply includes_spec in Hd. destruct Hd as (pre & post & ->).
    exists pre, d, post. split; reflexivity.
  - intros src L. unfold Interceptor_Domains.isCaptchaUrl. rewrite L.
    unfold CaptchaPage.is_captcha_frame. cbn [Str.some existsb Interceptor_Domains.CAPTCHA_DOMAINS].
    destruct (Str.includes src "recaptcha") eqn:R; [reflexivity|].
    destruct (Str.includes src "gstatic.com/recaptcha") eqn:G.
    + exfalso. apply includes_spec in G.
      assert (S : Str.Substring "recaptcha" "gstatic.com/recaptcha")
        by (apply includes_spec; reflexivity).
      pose proof (substring_trans _ _ _ S G) as T. apply includes_spec in T. congruence.
    + destruct (Str.includes src "hcaptcha"), (Str.includes src "turnstile"),
        (Str.includes src "challenges.cloudflare.com"); reflexivity.
  - exists "https://www.google.com/RECAPTCHA/api2/anchor". split; reflexivity.
Qed.

End CaptchaPageFacts.

(** ** The patched fetch of the CAPTCHA handler *)

Section PatchedFetch.
Import CaptchaPage.

Lemma headers_has_set name value hs : headers_has name (headers_set name value hs) = true.
Proof.
  unfold headers_has, headers_set. rewrite existsb_app. simpl.
  rewrite String.eqb_refl. now rewrite orb_true_r.
Qed.

Lemma headers_set_absent name value hs :
  headers_has name hs = false -> headers_set name value hs = hs ++ [(name, value)].
Proof.
  unfold headers_has, headers_set. intros H. f_equal.
  induction hs as [|kv hs IH]; simpl in *; [reflexivity|].
  apply orb_false_iff in H. destruct H as [H1 H2]. rewrite H1. simpl. now rewrite IH.
Qed.

Lemma prepare_init_credentials init :
  falsy (credentials (prepare_init init)) = false.
Proof.
  unfold prepare_init. cbn [credentials].
  destruct (falsy (credentials match init with Some i => i | None => empty_init end)) eqn:E;
    [reflexivity | exact E].
Qed.

(** X11. For a CAPTCHA request the patch completes the options and takes
    nothing away: afterwards credentials and mode are set, the mode is not
    [navigate], an [Accept] header is present, every header and every other
    member the caller gave is still there, credentials and a mode the caller
    chose are kept, and completing completed options changes nothing. *)
Theorem captcha_init_is_completed_not_replaced :
  forall init : option RequestInit,
    let given := match init with Some i => i | None => empty_init end in
    let i := prepare_init init in
    falsy (credentials i) = false /\
    falsy (mode i) = false /\
    mode i <> Some "navigate" /\
    headers_has "Accept" (headers i) = true /\
    (forall kv, In kv (headers given) -> In kv (headers i)) /\
    others i = others given /\
    (falsy (credentials given) = false -> credentials i = credentials given) /\
    (falsy (mode given) = false -> mode given <> Some "navigate" -> mode i = mode given) /\
    (headers_has "Accept" (headers given) = true -> headers i = headers given) /\
    prepare_init (Some i) = i.
Proof.
  intros init given i.
  assert (C : falsy (credentials i) = false) by apply prepare_init_credentials.
  assert (Md : falsy (mode i) = false /\ mode i <> Some "navigate").
  { subst i. unfold prepare_init. fold given. cbn [mode].
    destruct (falsy (mode given)) eqn:E; cbn [orb]; [split; [reflexivity | discriminate]|].
    destruct (mode given) as [m|] eqn:Em; [|discriminate].
    destruct (String.eqb m "navigate") eqn:N; [split; [reflexivity | discriminate]|].
    split; [exact E|]. intros [= ->]. discriminate. }
  assert (A : headers_has "Accept" (headers i) = true).
  { subst i. unfold prepare_init. fold given. cbn [headers].
    destruct (headers_has "Accept" (headers given)) eqn:E; cbn [negb];
      [exact E | apply headers_has_set]. }
  destruct Md as [M1 M2].
  repeat (split; [assumption|]).
  split; [|split; [reflexivity|split; [|split; [|split]]]].
  - intros kv H. subst i. unfold prepare_init. fold given. cbn [headers].
    destruct (headers_has "Accept" (headers given)) eqn:E; cbn [negb]; [assumption|].
    rewrite headers_set_absent by assumption. apply in_or_app. now left.
  - intros H. subst i. unfold prepare_init. fold given. cbn [credentials]. now rewrite H.
  - intros H N. subst i. unfold prepare_init. fold given. cbn [mode]. rewrite H. cbn [orb].
    destruct (mode given) as [m|]; [|reflexivity].
    destruct (String.eqb m "navigate") eqn:E; [|reflexivity].
    apply String.eqb_eq in E. congruence.
  - intros H. subst i. unfold prepare_init. fold given. cbn [headers]. now rewrite H.
  - unfold prepare_init at 1. cbv zeta. rewrite C, A, M1. cbn [negb orb].
    destruct (mode i) as [m|] eqn:Em; [|discriminate].
    destruct (String.eqb m "navigate") eqn:E.
    + apply String.eqb_eq in E. congruence.
    + destruct i. cbn in *. now subst.
Qed.

(** X12. The patched fetch calls the original once and hands on its
    answer; when that call is rejected, a CAPTCHA request is always tried a
    second time, with [{ credentials: "include" }] as its only options, and
    the second answer is final, while any other request is rejected at once
    with options exactly as the caller gave them. The input is never
    changed. *)
Theorem patched_fetch_retries_captcha_requests_once :
  forall (originalFetch : nat -> FetchInput -> option RequestInit
                          -> ServiceWorker.Settled ServiceWorker.Response)
         (input : FetchInput) (init : option RequestInit),
    let captcha := CaptchaHandler.isCaptchaRequest (input_url input) in
    let first := (input, if captcha then Some (prepare_init init) else init) in
    let out := patched_fetch originalFetch input init in
    match originalFetch 0 (fst first) (snd first) with
    | ServiceWorker.Fulfilled r =>
        out = (ServiceWorker.Fulfilled r, [first])
    | ServiceWorker.Rejected error =>
        if captcha
        then out = (originalFetch 1 input (Some retry_init), [first; (input, Some retry_init)])
        else out = (ServiceWorker.Rejected error, [(input, init)])
    end.
Proof.
  intros originalFetch input init captcha first out.
  subst out first. unfold patched_fetch. fold captcha. cbn [fst snd].
  destruct captcha.
  - destruct (originalFetch 0 input (Some (prepare_init init))); [reflexivity|].
    now rewrite prepare_init_credentials.
  - destruct (originalFetch 0 input init); reflexivity.
Qed.

(** X13. The preload observer gives the attribute
    [crossorigin="use-credentials"] to a preload link or a script from a
    CAPTCHA domain that has no [crossorigin] attribute, and touches nothing
    else: the node stays the kind of node it was with the [rel], [href] or
    [src] it had, a node that already has the attribute keeps it and stays
    as it is, a link that is not a preload and a node from an address that
    is not a CAPTCHA domain's stay as they are, and handling a node twice is
    handling it once. *)
Theorem preload_observer_only_fills_missing_crossorigin :
  forall node : PreloadNode,
    let node' := prepare_preload node in
    (forall v, crossorigin_of node = Some v -> node' = node) /\
    (node' <> node -> crossorigin_of node' = Some "use-credentials") /\
    (forall rel href c,
        node = LinkElement rel href c ->
        rel = "preload" -> is_captcha_resource href = true ->
        crossorigin_of node' <> None) /\
    (forall rel href c,
        node = LinkElement rel href c -> rel <> "preload" -> node' = node) /\
    (forall src c,
        node = ScriptElement src c ->
        is_captcha_resource src = true -> crossorigin_of node' <> None) /\
    prepare_preload node' = node' /\
    (forall rel href c,
        node = LinkElement rel href c -> exists c', node' = LinkElement rel href c') /\
    (forall src c,
        node = ScriptElement src c -> exists c', node' = ScriptElement src c') /\
    (node = OtherElement -> node' = OtherElement) /\
    (forall rel href c,
        node = LinkElement rel href c -> is_captcha_resource href = false -> node' = node) /\
    (forall src c,
        node = ScriptElement src c -> is_captcha_resource src = false -> node' = node) /\
    (forall rel href,
        node = LinkElement rel href None ->
        rel = "preload" -> is_captcha_resource href = true ->
        node' = LinkElement rel href (Some "use-credentials")) /\
    (forall src,
        node = ScriptElement src None ->
        is_captcha_resource src = true ->
        node' = ScriptElement src (Some "use-credentials")).
Proof.
  intros node node'. subst node'.
  assert (T : forall P Q : Prop, P -> Q -> P /\ Q) by tauto.
  destruct node as [rel href c|src c|].
  - destruct (String.eqb rel "preload") eqn:R.
    + pose proof R as Rp. apply String.eqb_eq in Rp.
      destruct (is_captcha_resource href) eqn:H; destruct c as [v|];
        cbn -[String.eqb is_captcha_resource]; rewrite ?R, ?H;
        cbn -[String.eqb is_captcha_resource]; rewrite ?R, ?H;
        cbn -[String.eqb is_captcha_resource];
        repeat apply T; intros;
        repeat match goal with
               | E : LinkElement _ _ _ = LinkElement _ _ _ |- _ =>
                   injection E as ? ? ?; subst
               end;
        try congruence; try (eexists; reflexivity).
    + pose proof R as Rn. apply String.eqb_neq in Rn.
      cbn -[String.eqb is_captcha_resource]; rewrite ?R;
        cbn -[String.eqb is_captcha_resource]; rewrite ?R;
        cbn -[String.eqb is_captcha_resource];
        repeat apply T; intros;
        repeat match goal with
               | E : LinkElement _ _ _ = LinkElement _ _ _ |- _ =>
                   injection E as ? ? ?; subst
               end;
        try congruence; try (eexists; reflexivity).
  - destruct (is_captcha_resource src) eqn:H; destruct c as [v|];
      cbn -[String.eqb is_captcha_resource]; rewrite ?H;
      cbn -[String.eqb is_captcha_resource]; rewrite ?H;
      cbn -[String.eqb is_captcha_resource];
      repeat apply T; intros;
      repeat match goal with
             | E : ScriptElement _ _ = ScriptElement _ _ |- _ =>
                 injection E as ? ?; subst
             end;
      try congruence; try (eexists; reflexivity).
  - cbn. repeat apply T; intros; try congruence; try (eexists; reflexivity).
Qed.

End PatchedFetch.

(** ** Ports found by the message patch of the CAPTCHA handler *)

Section PortCollection.
Import Js.







Lemma value_at_leaf m path x :
  match m with MObject (_ :: _) => False | _ => True end ->
  value_at m path = Some x -> path = [] /\ x = m.
Proof.
  destruct path as [|i path]; cbn.
  - intros _ [= <-]. now split.
  - destruct m as [n|it|[|kv fs]|]; try discriminate; [|contradiction].
    destruct i; discriminate.
Qed.



Lemma holds_port_is_port m p :
  CaptchaPage.holds_port m p -> CaptchaHandler.isMessagePort p = true.
Proof. now intros (path & _ & H). Qed.


Lemma cyclic_is_object m : CaptchaPage.cyclic m -> CaptchaHandler.is_object m = true.
Proof.
  intros (path & H). destruct m; try reflexivity.
  apply value_at_leaf in H; [|exact I]. destruct H as [_ H]. discriminate.
Qed.




End PortCollection.

(** ** The service worker when its sources fail *)

(** X16. When the proxy that a request is routed to rejects, the worker
    does not fail: it fetches the request once more, directly from the
    network, and answers with what that fetch returns; only when that fetch
    rejects too does it answer with the fixed response of status 500. A
    rejected [loadConfig] is handled the same way, without consulting any
    proxy. *)
Theorem worker_falls_back_to_direct_fetch_then_500 :
  forall (env : ServiceWorker.Env) (request : ServiceWorker.Request) (reason : string),
    fst (ServiceWorker.route env request) = ServiceWorker.Rejected reason ->
    let n := snd (ServiceWorker.route env request) in
    n <= 1 /\
    ServiceWorker.respond env request =
    match ServiceWorker.net_fetch env n request with
    | ServiceWorker.Fulfilled r => r
    | ServiceWorker.Rejected _ => ServiceWorker.failure_response
    end /\
    ServiceWorker.status ServiceWorker.failure_response = 500 /\
    ServiceWorker.body ServiceWorker.failure_response = "Proxy request failed" /\
    (forall r0, ServiceWorker.sj_loadConfig env = ServiceWorker.Rejected r0 -> n = 0) /\
    (n = 1 ->
     ServiceWorker.net_fetch env 0 request = ServiceWorker.Rejected reason /\
     ServiceWorker.sj_route env request = ServiceWorker.Fulfilled false).
Proof.
  intros env request reason H n. subst n. unfold ServiceWorker.respond.
  destruct (ServiceWorker.route env request) as [[r|e] k] eqn:R; [discriminate|].
  cbn [fst snd] in *. injection H as ->.
  unfold ServiceWorker.route in R.
  destruct (ServiceWorker.sj_loadConfig env) as [[]|r0] eqn:L.
  - destruct (Str.startsWith _ _).
    + injection R as _ <-. repeat split; try reflexivity; try lia; try discriminate.
    + destruct (ServiceWorker.sj_route env request) as [[|]|e] eqn:S.
      * injection R as _ <-. repeat split; try reflexivity; try lia; try discriminate.
      * injection R as R <-. repeat split; try reflexivity; try lia; try discriminate.
        exact R.
      * injection R as _ <-. repeat split; try reflexivity; try lia; try discriminate.
  - injection R as _ <-. repeat split; try reflexivity; try lia; try discriminate.
Qed.

(** A worker whose Ultraviolet proxy is down while the network answers. *)
Lemma worker_falls_back_to_direct_fetch_then_500_witness :
  let env :=
    {| ServiceWorker.origin := "https://radius.test";
       ServiceWorker.uv_prefix := "/vu/service/";
       ServiceWorker.sj_loadConfig := ServiceWorker.Fulfilled tt;
       ServiceWorker.uv_fetch := fun _ => ServiceWorker.Rejected "bare server unreachable";
       ServiceWorker.sj_route := fun _ => ServiceWorker.Fulfilled false;
       ServiceWorker.sj_fetch := fun _ => ServiceWorker.Rejected "not routed";
       ServiceWorker.net_fetch := fun _ _ => ServiceWorker.Fulfilled Scenario.html_response |} in
  fst (ServiceWorker.route env Scenario.proxied_request)
  = ServiceWorker.Rejected "bare server unreachable" /\
  ServiceWorker.respond env Scenario.proxied_request = Scenario.html_response.
Proof.
  intros env. split; [reflexivity|].
  exact (proj1 (proj2 (worker_falls_back_to_direct_fetch_then_500 env Scenario.proxied_request
                         "bare server unreachable" eq_refl))).
Defined.

(** ** What a call of the patched primitives can do *)

Section PatchedPrimitives.
Import Js.

Variable pf : Platform.

(** X1. One call of the overridden [open] has one of three outcomes and
    never two of them: without a URL it returns [null] and does nothing; with
    a trusted URL the platform's [open] is called once and the address of
    the frame is not written; with any other URL the address of the frame is
    written once, the platform's [open] is not called and the proxy is
    returned. The realm itself is never changed by a call. *)
Theorem open_override_redirects_or_forwards_never_both :
  forall (args : OpenArgs) (st : St),
    let out := Interceptor.call_open pf
                 (OpenOverride (Some NativeOpenFn) (Interceptor.navigate_frame pf)) args st in
    exists opens reds,
      Interceptor.native_opens (trace (snd out)) = Interceptor.native_opens (trace st) ++ opens /\
      Interceptor.redirects (trace (snd out)) = Interceptor.redirects (trace st) ++ reds /\
      length opens + length reds <= 1 /\
      (opens <> [] -> opens = [args]) /\
      (reds <> [] -> fst out = Ok (Some (ProxyWindow Interceptor.inert_handler))) /\
      (Interceptor.url_falsy (url args) = true -> opens = [] /\ reds = [] /\ fst out = Ok None) /\
      frame (snd out) = frame st.
Proof.
  intros args st out. subst out.
  destruct (url args) as [u|] eqn:Hu.
  - destruct (Interceptor.url_falsy (Some u)) eqn:Hf.
    + exists [], []. cbn [Interceptor.call_open]. unfold Interceptor.open_override.
      rewrite Hu, Hf. cbn. rewrite native_opens_app, redirects_app.
      cbn. repeat split; try tauto; try lia.
    + destruct (Interceptor_Domains.isCaptchaUrl (Interceptor.url_toString u)) eqn:Ht.
      * exists [args], [].
        rewrite (override_trusted pf _ _ args u st Hu Ht). cbv zeta.
        cbn [Interceptor.call_open].
        rewrite native_open_call_eq. cbn [fst snd logged trace frame].
        rewrite !native_opens_app, !redirects_app. cbn.
        rewrite !app_nil_r. repeat split; try tauto; try lia; try discriminate.
      * exists [], [encodeURL pf (Interceptor.url_toString u)].
        rewrite (override_untrusted pf _ _ args u st Hu Hf Ht).
        cbn [fst snd logged trace frame].
        rewrite !native_opens_app, !redirects_app. cbn.
        rewrite !app_nil_r. repeat split; try tauto; try lia; try discriminate.
  - exists [], []. cbn [Interceptor.call_open]. unfold Interceptor.open_override.
    rewrite Hu. cbn. rewrite native_opens_app, redirects_app.
    cbn. repeat split; try tauto; try lia.
Qed.

(** X2. Trust is decided by mention: a URL that contains an entry of the
    allowlist anywhere, in its host, its path or its query, in any mix of
    upper and lower case, is passed to the platform's [open] with its
    arguments unchanged and is not redirected into the frame. *)
Theorem url_mentioning_a_captcha_name_opens_a_window :
  forall (pre mid post d : string) (cb : string -> list Event)
         (target features : option string) (st : St),
    In d Interceptor_Domains.CAPTCHA_DOMAINS ->
    Str.eq_ignore_case mid d ->
    let args := {| url := Some (UrlString (pre ++ mid ++ post)%string);
                   target := target; features := features |} in
    let out := Interceptor.call_open pf (OpenOverride (Some NativeOpenFn) cb) args st in
    Interceptor.native_opens (trace (snd out)) = Interceptor.native_opens (trace st) ++ [args] /\
    Interceptor.redirects (trace (snd out)) = Interceptor.redirects (trace st) /\
    exists tr, fst out = Ok (native_open pf tr args).
Proof.
  intros pre mid post d cb target features st Hd Hm args out.
  assert (Ht : Interceptor_Domains.isCaptchaUrl
                 (Interceptor.url_toString (UrlString (pre ++ mid ++ post)%string)) = true).
  { apply isCaptchaUrl_spec. exists d. split; [assumption|].
    exists pre, mid, post. split; [reflexivity | assumption]. }
  subst out. rewrite (override_trusted pf _ cb args _ st eq_refl Ht). cbv zeta.
  cbn [Interceptor.call_open].
  rewrite native_open_call_eq. cbn [fst snd logged trace].
  rewrite !native_opens_app, !redirects_app. cbn. rewrite !app_nil_r.
  repeat split. eexists. reflexivity.
Qed.

(** X7. On the window of the frame, whose primitive raises its errors in
    the realm of the frame, the patched send never retries. The platform
    sees exactly one call, the sanitised first attempt, and the caller gets
    the outcome of that call: a normal return, or the platform's error as it
    was raised, a [DataCloneError] included, since no error of the frame is
    an instance of the embedding page's [DOMException]. *)
Theorem failure_of_the_frames_primitive_is_never_retried :
  forall (m : Message) (a : SecondArg) (t : option (list Transfer.Item)) (st : St),
    raises_in_frame_realm pf ->
    let c := Interceptor.attempt_call pf m a t in
    let out := Interceptor.call_wrapper pf NativePM m a t st in
    Interceptor.native_sends (trace (snd out)) = Interceptor.native_sends (trace st) ++ [c] /\
    fst out = match native_postMessage pf (trace st) c with
              | None => Ok tt
              | Some e => Throw e
              end /\
    (forall e, fst out = Throw e -> realm e = Realm.Framed /\ isDataCloneError e = false).
Proof.
  intros m a t st Hf c out.
  assert (N : forall e, realm e = Realm.Framed -> isDataCloneError e = false).
  { intros e R. unfold isDataCloneError. rewrite R. cbn. now rewrite andb_false_r. }
  subst out. unfold Interceptor.call_wrapper. rewrite wrapper_eq.
  cbn [Interceptor.invoke_pm]. rewrite native_pm_call_eq. fold c.
  destruct (native_postMessage pf (trace st) c) as [e|] eqn:E.
  - pose proof (Hf _ _ _ E) as R. rewrite (N e R). cbn [fst snd logged trace].
    rewrite native_sends_app. cbn. repeat split; try reflexivity.
    + now injection H as <-.
    + injection H as <-. now apply N.
  - cbn [fst snd logged trace]. rewrite native_sends_app. cbn.
    repeat split; try reflexivity; discriminate.
Qed.

End PatchedPrimitives.

(** A popup of an unrelated site whose query mentions a CAPTCHA name. *)
Lemma url_mentioning_a_captcha_name_opens_a_window_witness :
  let args := {| Js.url := Some (Js.UrlString "https://ads.test/landing?ref=TurnStile");
                 Js.target := Some "_blank"; Js.features := None |} in
  let st := Scenario.page_of (Scenario.window_of false
              (Scenario.document_of Js.Complete Scenario.linked_page)) in
  let out := Interceptor.call_open Scenario.quiet
               (Js.OpenOverride (Some Js.NativeOpenFn) (Interceptor.navigate_frame Scenario.quiet))
               args st in
  In "turnstile" Interceptor_Domains.CAPTCHA_DOMAINS /\
  Str.eq_ignore_case "TurnStile" "turnstile" /\
  Interceptor.native_opens (Js.trace (snd out)) = [args] /\
  Interceptor.redirects (Js.trace (snd out)) = [].
Proof.
  intros args st out.
  assert (Hd : In "turnstile" Interceptor_Domains.CAPTCHA_DOMAINS) by (simpl; tauto).
  assert (Hm : Str.eq_ignore_case "TurnStile" "turnstile") by reflexivity.
  split; [exact Hd | split; [exact Hm|]].
  destruct (url_mentioning_a_captcha_name_opens_a_window Scenario.quiet
              "https://ads.test/landing?ref=" "TurnStile" "" "turnstile"
              (Interceptor.navigate_frame Scenario.quiet) (Some "_blank") None st Hd Hm)
    as (H1 & H2 & _).
  split; [exact H1 | exact H2].
Defined.

(** The framed page sends a message with a buffer it made to transfer, on
    a platform that clones only messages sent without a transfer list: the
    buffer is dropped from the list, the send is refused, and the refusal
    reaches the caller without a retry. *)
Lemma failure_of_the_frames_primitive_is_never_retried_witness :
  let st := Scenario.page_of (Scenario.window_of false
              (Scenario.document_of Js.Complete Scenario.linked_page)) in
  let out := Interceptor.call_wrapper Scenario.picky Js.NativePM (Js.MPrimitive 7)
               (Js.ArgString "*") (Some [Scenario.buffer]) st in
  Interceptor.native_sends (Js.trace (snd out))
  = [Js.CallOrigin (Js.MPrimitive 7) "*" (Some [])] /\
  fst out = Js.Throw (Js.DataCloneError Realm.Framed).
Proof.
  intros st out.
  assert (Hf : Js.raises_in_frame_realm Scenario.picky).
  { intros tr c e. cbn. destruct (Js.call_transfer c); [|discriminate].
    now intros [= <-]. }
  destruct (failure_of_the_frames_primitive_is_never_retried Scenario.picky
              (Js.MPrimitive 7) (Js.ArgString "*") (Some [Scenario.buffer]) st Hf)
    as (H1 & H2 & _).
  split; [exact H1 | exact H2].
Defined.

(** ** Clicks the listener leaves alone, and installation that waits *)

Section ClickEdges.
Import Js.

Lemma closest_anchor_rev_sound root rp a :
  Dom.closest_anchor_rev root rp = Some a ->
  exists q e, rev rp = a ++ q /\ Dom.elem_at root a = Some e /\ Dom.tagName e = "A".
Proof.
  induction rp as [|i rp IH]; rewrite closest_anchor_rev_eq; cbv zeta; intros H.
  - destruct (Dom.elem_at root (rev [])) as [e|] eqn:E; [|discriminate].
    destruct (String.eqb (Dom.tagName e) "A") eqn:T; [|discriminate].
    injection H as <-. exists [], e. rewrite app_nil_r.
    apply String.eqb_eq in T. auto.
  - assert (Up : Dom.closest_anchor_rev root rp = Some a ->
                 exists q e, rev (i :: rp) = a ++ q /\
                             Dom.elem_at root a = Some e /\ Dom.tagName e = "A").
    { intros H'. destruct (IH H') as (q & e & Eq & Ee & Et).
      exists (q ++ [i]), e. simpl. rewrite Eq, app_assoc. auto. }
    destruct (Dom.elem_at root (rev (i :: rp))) as [e|] eqn:E; [|auto].
    destruct (String.eqb (Dom.tagName e) "A") eqn:T; [|auto].
    injection H as <-. exists [], e. rewrite app_nil_r.
    apply String.eqb_eq in T. auto.
Qed.

Lemma closest_anchor_sound root target a :
  Dom.closest_anchor root target = Some a ->
  exists q e, target = a ++ q /\ Dom.elem_at root a = Some e /\ Dom.tagName e = "A".
Proof.
  unfold Dom.closest_anchor. intros H.
  destruct (closest_anchor_rev_sound _ _ _ H) as (q & e & Eq & He).
  rewrite rev_involutive in Eq. eauto.
Qed.

(** The listener does nothing when no element named ["A"] at or above the
    target carries a marker. *)
Lemma click_listener_ignores cb root ev :
  (forall a q e, etarget ev = a ++ q -> Dom.elem_at root a = Some e ->
                 Dom.tagName e = "A" ->
                 Dom.isNewContextMarker (Dom.getAttribute e "target") = false) ->
  Interceptor.click_listener cb root ev = (ev, []).
Proof.
  intros H. unfold Interceptor.click_listener.
  destruct (Dom.closest_anchor root (etarget ev)) as [a|] eqn:C; [|reflexivity].
  destruct (closest_anchor_sound _ _ _ C) as (q & e & Eq & Ee & Et).
  now rewrite Ee, (H a q e Eq Ee Et).
Qed.

(** X3. After installation, a pointer activation on a node that has no
    marked anchor at or above it (plain text, a button, a link that opens in
    the same context) is left entirely alone: its default action and its
    propagation are not suppressed, nothing is logged or redirected, and the
    page is as it was. *)
Theorem unmarked_activation_is_left_alone :
  forall (cb : string -> list Event) (st : St)
         (pm : option PMFn) (o : option OpenFn) (d : Document)
         (root : Dom.Node) (target : Dom.Path),
    contentWindow (frame st) = Some {| cross_origin := false; postMessage := pm;
                                       open := o; document := d |} ->
    readyState d <> Loading ->
    listeners d = [] ->
    documentElement d = Some root ->
    (forall a q e, target = a ++ q -> Dom.elem_at root a = Some e ->
                   Dom.tagName e = "A" ->
                   Dom.isNewContextMarker (Dom.getAttribute e "target") = false) ->
    let st1 := snd (Interceptor.injectIframeInterceptor cb st) in
    Interceptor.dispatch_click target st1
    = (Ok {| etarget := target; defaultPrevented := false; propagationStopped := false |},
       st1).
Proof.
  intros cb st pm o d root target Hw Hr Hl Hd Hn st1.
  destruct (inject_ready_document cb st pm o d Hw Hr) as (evs & E & _).
  subst st1. rewrite E. cbn [snd]. rewrite Hl, Hd.
  unfold Interceptor.dispatch_click, Interceptor.the_window, bind, get_frame, ret.
  cbn [frame contentWindow document listeners app Interceptor.deliver_clicks].
  unfold bind.
  erewrite deliver_click_eq by reflexivity.
  rewrite click_listener_ignores by exact Hn.
  unfold ret, logged. cbn. now rewrite app_nil_r.
Qed.


End ClickEdges.

Section DeferredInstallation.
Import Js.

Variable pf : Platform.



(** X5. Binding to an accessible frame never throws. It adds one load
    listener; it installs at once exactly when the document is complete;
    and for a frame bound before completion, the first [load] event does
    what installation does. *)
Theorem setup_installs_now_or_on_load :
  forall (st : St) (pm : option PMFn) (o : option OpenFn) (d : Document),
    contentWindow (frame st) = Some {| cross_origin := false; postMessage := pm;
                                       open := o; document := d |} ->
    let bound := {| frame := {| contentWindow := contentWindow (frame st);
                                loadListeners := loadListeners (frame st) ++ [HandleIframeLoad] |};
                    trace := trace st |} in
    fst (Interceptor.setupIframeInterceptor pf st) = Ok tt /\
    Interceptor.setupIframeInterceptor pf st
    = match readyState d with
      | Complete => Interceptor.injectIframeInterceptor (Interceptor.navigate_frame pf) bound
      | _ => (Ok tt, bound)
      end /\
    (loadListeners (frame st) = [] ->
     Interceptor.fire_load pf bound
     = Interceptor.injectIframeInterceptor (Interceptor.navigate_frame pf) bound).
Proof.
  intros st pm o d Hw bound.
  assert (S : Interceptor.setupIframeInterceptor pf st
              = match readyState d with
                | Complete => Interceptor.injectIframeInterceptor
                                (Interceptor.navigate_frame pf) bound
                | _ => (Ok tt, bound)
                end).
  { subst bound. destruct st as [[cw ll] tr]. cbn in Hw. subst cw.
    unfold Interceptor.setupIframeInterceptor, Interceptor.handleIframeLoad,
      Interceptor.read_document, Interceptor.the_window, Interceptor.same_origin_only,
      bind, get_frame, put_frame, ret.
    cbn. destruct (readyState d); reflexivity. }
  split; [|split; [exact S|]].
  - rewrite S. destruct (readyState d); try reflexivity.
    destruct (inject_never_throws (Interceptor.navigate_frame pf) bound) as (st' & ->).
    reflexivity.
  - intros Hl. subst bound. rewrite Hl. cbn [app].
    unfold Interceptor.fire_load, Interceptor.handleIframeLoad, bind, get_frame, ret.
    cbn [frame loadListeners map Interceptor.run_all]. unfold bind, ret.
    cbn [frame contentWindow]. rewrite Hw.
    match goal with
    | |- context [Interceptor.injectIframeInterceptor ?cb ?s] =>
        destruct (inject_never_throws cb s) as (st' & ->)
    end.
    reflexivity.
Qed.

End DeferredInstallation.

Section ObserverKeepsTheDocument.

Lemma text_at_cons n j q :
  DomKeep.text_at n (j :: q) =
  match n with
  | Dom.Text _ => None
  | Dom.Elem _ cs =>
      match nth_error cs j with
      | Some c => DomKeep.text_at c q
      | None => None
      end
  end.
Proof.
  unfold DomKeep.text_at. cbn [Dom.lookup]. destruct n as [d|e cs]; [reflexivity|].
  destruct (nth_error cs j); reflexivity.
Qed.

Lemma text_at_update f p root q :
  DomKeep.text_at (Dom.update f p root) q = DomKeep.text_at root q.
Proof.
  revert p root. induction q as [|j q IH]; intros p root.
  - destruct p as [|i p], root as [d|e cs]; reflexivity.
  - destruct p as [|i p], root as [d|e cs]; try reflexivity.
    cbn [Dom.update]. rewrite !text_at_cons, nth_error_update_nth.
    destruct (Nat.eqb i j); [|reflexivity].
    destruct (nth_error cs j) as [c|]; cbn [option_map]; [apply IH | reflexivity].
Qed.

Lemma getAttribute_removeAttribute_other name other e :
  other <> name ->
  Dom.getAttribute (Dom.removeAttribute name e) other = Dom.getAttribute e other.
Proof.
  intros Hn. unfold Dom.getAttribute, Dom.removeAttribute. cbn [Dom.attributes].
  induction (Dom.attributes e) as [|[k v] l IH]; [reflexivity|].
  cbn [filter fst Dom.assoc].
  destruct (String.eqb k name) eqn:E; cbn [negb Dom.assoc].
  - apply String.eqb_eq in E. subst k.
    destruct (String.eqb name other) eqn:E'; [|exact IH].
    apply String.eqb_eq in E'. congruence.
  - now rewrite IH.
Qed.

Lemma SameButTargetAttr_refl x : DomKeep.SameButTargetAttr x x.
Proof.
  unfold DomKeep.SameButTargetAttr. repeat split; auto.
Qed.

Lemma SameButTargetAttr_trans x y z :
  DomKeep.SameButTargetAttr x y -> DomKeep.SameButTargetAttr y z ->
  DomKeep.SameButTargetAttr x z.
Proof.
  intros (N1 & L1 & H1 & R1 & A1 & T1) (N2 & L2 & H2 & R2 & A2 & T2).
  split; [congruence|]. split; [congruence|]. split; [congruence|].
  split; [congruence|]. split.
  - intros name Hn. now rewrite A2, A1.
  - destruct T2 as [T2|T2]; [destruct T1 as [T1|T1]; [left | right]; congruence | now right].
Qed.

Lemma SameButTargetAttr_remove x :
  DomKeep.SameButTargetAttr x (Dom.removeAttribute "target" x).
Proof.
  split; [reflexivity|]. split; [reflexivity|]. split; [reflexivity|].
  split; [reflexivity|]. split.
  - intros name Hn. now apply getAttribute_removeAttribute_other.
  - right. apply getAttribute_removeAttribute.
Qed.

Lemma OnlyTargetTouched_refl root : DomKeep.OnlyTargetTouched root root.
Proof.
  intros p. split; [reflexivity|].
  destruct (Dom.elem_at root p) as [x|] eqn:E; [|reflexivity].
  exists x. split; [reflexivity | apply SameButTargetAttr_refl].
Qed.

Lemma OnlyTargetTouched_trans r1 r2 r3 :
  DomKeep.OnlyTargetTouched r1 r2 -> DomKeep.OnlyTargetTouched r2 r3 ->
  DomKeep.OnlyTargetTouched r1 r3.
Proof.
  intros H12 H23 p. destruct (H12 p) as [T12 E12]. destruct (H23 p) as [T23 E23].
  split; [congruence|].
  destruct (Dom.elem_at r1 p) as [x|].
  - destruct E12 as (y & Ey & Sy). rewrite Ey in E23. destruct E23 as (z & Ez & Sz).
    exists z. split; [assumption | eapply SameButTargetAttr_trans; eassumption].
  - now rewrite E12 in E23.
Qed.

Lemma OnlyTargetTouched_update root p :
  DomKeep.OnlyTargetTouched root (Dom.update (Dom.removeAttribute "target") p root).
Proof.
  intros q. split; [apply text_at_update|]. rewrite elem_at_update.
  destruct (Dom.elem_at root q) as [x|]; destruct (list_eq_dec Nat.eq_dec q p);
    cbn [option_map]; try reflexivity.
  - eexists. split; [reflexivity | apply SameButTargetAttr_remove].
  - eexists. split; [reflexivity | apply SameButTargetAttr_refl].
Qed.

Lemma OnlyTargetTouched_fold_update (g : Dom.Path -> Dom.Path) qs root :
  DomKeep.OnlyTargetTouched root
    (fold_left (fun d q => Dom.update (Dom.removeAttribute "target") (g q) d) qs root).
Proof.
  revert root. induction qs as [|q qs IH]; intros root; cbn [fold_left];
    [apply OnlyTargetTouched_refl|].
  eapply OnlyTargetTouched_trans; [apply OnlyTargetTouched_update | apply IH].
Qed.

Lemma strip_added_node_keeps root r :
  DomKeep.OnlyTargetTouched root (Interceptor.strip_added_node root r).
Proof.
  unfold Interceptor.strip_added_node.
  destruct (Dom.lookup root r) as [[d|e cs]|]; try apply OnlyTargetTouched_refl.
  destruct (Dom.isHTMLAnchorElement e).
  - destruct (Dom.isNewContextMarker _);
      [apply OnlyTargetTouched_update | apply OnlyTargetTouched_refl].
  - destruct (Dom.isHTMLElement e); [|apply OnlyTargetTouched_refl].
    apply (OnlyTargetTouched_fold_update (fun q => r ++ q)).
Qed.

Lemma fold_strip_keeps rs root :
  DomKeep.OnlyTargetTouched root (fold_left Interceptor.strip_added_node rs root).
Proof.
  revert root. induction rs as [|r rs IH]; intros root; cbn [fold_left];
    [apply OnlyTargetTouched_refl|].
  eapply OnlyTargetTouched_trans; [apply strip_added_node_keeps | apply IH].
Qed.

(** X6. Whatever mutation records it is given, the observer callback
    leaves every node of the document where it was: every text node keeps
    its data, no node appears or disappears, and every element keeps its
    namespace, name, [href], realm and every attribute other than [target],
    whose value is either kept or removed. *)
Theorem observer_callback_touches_only_target_attributes :
  forall (mutations : list Js.MutationRecord) (root : Dom.Node),
    DomKeep.OnlyTargetTouched root (Interceptor.observer_callback mutations root) /\
    (forall p, Dom.lookup (Interceptor.observer_callback mutations root) p = None <->
               Dom.lookup root p = None).
Proof.
  intros mutations root.
  assert (K : DomKeep.OnlyTargetTouched root (Interceptor.observer_callback mutations root)).
  { rewrite observer_callback_flat. apply fold_strip_keeps. }
  split; [exact K|].
  intros p. destruct (K p) as [T E]. unfold DomKeep.text_at in T. unfold Dom.elem_at in E.
  destruct (Dom.lookup root p) as [[d|e cs]|];
    destruct (Dom.lookup (Interceptor.observer_callback mutations root) p) as [[d'|e' cs']|];
    try discriminate; try (destruct E as (y & Ey & _); discriminate);
    split; intros; congruence.
Qed.

End ObserverKeepsTheDocument.

Lemma unmarked_activation_is_left_alone_witness :
  let st := Scenario.page_of (Scenario.window_of false
              (Scenario.document_of Js.Complete Scenario.nested_anchor_page)) in
  let st1 := snd (Interceptor.injectIframeInterceptor
                    (Interceptor.navigate_frame Scenario.quiet) st) in
  Dom.elem_at Scenario.nested_anchor_page [1; 0]
  = Some (Scenario.element Dom.HTML "a" [("href", "/a")] "https://x.test/a") /\
  Interceptor.dispatch_click [1; 0] st1
  = (Js.Ok {| Js.etarget := [1; 0]; Js.defaultPrevented := false;
              Js.propagationStopped := false |}, st1).
Proof.
  intros st st1. split; [reflexivity|].
  refine (unmarked_activation_is_left_alone
            (Interceptor.navigate_frame Scenario.quiet) st
            (Some Js.NativePM) (Some Js.NativeOpenFn)
            (Scenario.document_of Js.Complete Scenario.nested_anchor_page)
            Scenario.nested_anchor_page [1; 0] eq_refl _ eq_refl eq_refl _).
  - discriminate.
  - intros a q e E He Ht.
    destruct a as [|i [|j [|k a]]]; cbn in E.
    + cbn in He. injection He as <-. discriminate.
    + injection E as <- _. cbn in He. injection He as <-. discriminate.
    + injection E as <- <- _. cbn in He. injection He as <-. reflexivity.
    + destruct q; discriminate.
Defined.


Lemma setup_installs_now_or_on_load_witness :
  let st := Scenario.page_of (Scenario.window_of false
              (Scenario.document_of Js.Interactive Scenario.linked_page)) in
  let bound := {| Js.frame := {| Js.contentWindow := Js.contentWindow (Js.frame st);
                                 Js.loadListeners := [Js.HandleIframeLoad] |};
                  Js.trace := [] |} in
  Interceptor.setupIframeInterceptor Scenario.quiet st = (Js.Ok tt, bound) /\
  Interceptor.fire_load Scenario.quiet bound
  = Interceptor.injectIframeInterceptor (Interceptor.navigate_frame Scenario.quiet) bound.
Proof.
  intros st bound.
  destruct (setup_installs_now_or_on_load Scenario.quiet st
              (Some Js.NativePM) (Some Js.NativeOpenFn)
              (Scenario.document_of Js.Interactive Scenario.linked_page) eq_refl)
    as (_ & S & L).
  split; [exact S | exact (L eq_refl)].
Defined.
